(** * Service-module synthesis of the data-service generator

    A shallow embedding of
    [packages/amplication-data-service-generator/src/server/resource/service/create-service.ts]
    and of the helpers it calls, followed by the properties of the two
    modules (the entity's service and its base service) it produces. *)

From Stdlib Require Import String Ascii List Bool Lia.
Import ListNotations.
Local Open Scope string_scope.
Local Open Scope list_scope.
#[local] Set Warnings "-register-all".

(** ** Syntax trees

    The nodes of [ast-types] that the generator builds or inspects.  As in
    [ast-types], every node lives in one type and a node's kind is its
    constructor.  A comment is kept as a sibling that precedes the node it
    is attached to. *)
Module Ast.

Inductive Node : Type :=
  | Identifier (name : string)
  | ThisExpression
  | Super
  | MemberExpression (object property : Node)
  | CallExpression (callee : Node) (arguments : list Node)
  | AwaitExpression (argument : Node)
  | LogicalExpression (operator : string) (left right : Node)
  | ArrowFunctionExpression (params : list Node) (body : Node)
  | ObjectExpression (properties : list Node)
  | SpreadProperty (argument : Node)
  | ObjectProperty (key value : Node)
  | TSParameterProperty (accessibility : string) (parameter typeAnnotation : Node)
  | ExpressionStatement (expression : Node)
  | ReturnStatement (argument : Node)
  | CommentLine (value : string)
  | VariableDeclaration (declare : bool) (id : Node)
  | TSInterfaceDeclaration (declare : bool) (id : Node)
  | ImportSpecifier (imported : Node)
  | ImportDeclaration (specifiers : list Node) (source : string)
  | ClassDeclaration (declare : bool) (id : Node) (superClass : option Node)
                     (body : list Node)
  | ClassMethod (kind : string) (key : Node) (async : bool)
                (params : list Node) (body : list Node).

(** A parsed source file: the statements of its program. *)
Definition File := list Node.

(** [namedTypes.Identifier.check] and [namedTypes.ClassMethod.check]. *)
Definition Identifier_check (n : Node) : bool :=
  match n with Identifier _ => true | _ => false end.

Definition ClassMethod_check (n : Node) : bool :=
  match n with ClassMethod _ _ _ _ _ => true | _ => false end.

(** The [name] of an identifier node. *)
Definition identifierName (n : Node) : option string :=
  match n with Identifier name => Some name | _ => None end.

End Ast.
Import Ast.

(** ** Entities *)

(** Modelled from the spec: the [Entity] and [EntityField] types of
    [types.ts] and [isPasswordField] of [util/field.ts] are not part of the
    sources at hand.  The spec gives a field a name and a capability tag
    that tells whether the field is sensitive, and an entity an ordered
    sequence of fields. *)
Inductive EnumDataType : Type :=
  | SingleLineText
  | WholeNumber
  | Password.

Record EntityField : Type := { name : string; dataType : EnumDataType }.

Record Entity : Type := { fields : list EntityField }.

Definition isPasswordField (field : EntityField) : bool :=
  match dataType field with Password => true | _ => false end.

(** ** Constants of [create-service.ts] *)

Definition ARGS_ID : Node := Identifier "args".
Definition DATA_ID : Node := Identifier "data".
Definition PASSWORD_SERVICE_ID : Node := Identifier "PasswordService".
Definition PASSWORD_SERVICE_MEMBER_ID : Node := Identifier "passwordService".

(** [memberExpression`this.${PASSWORD_SERVICE_MEMBER_ID}.hash`] *)
Definition HASH_MEMBER_EXPRESSION : Node :=
  MemberExpression (MemberExpression ThisExpression PASSWORD_SERVICE_MEMBER_ID)
                   (Identifier "hash").

Definition TRANSFORM_STRING_FIELD_UPDATE_INPUT_ID : Node :=
  Identifier "transformStringFieldUpdateInput".

Definition serviceTemplatePath : string := "./service.template.ts".
Definition serviceBaseTemplatePath : string := "./service.base.template.ts".

(** [new Set(["create", "update"])], with its membership test. *)
Definition PASSWORD_FIELD_ASYNC_METHODS : list string := ["create"; "update"].

Definition has (set : list string) (x : string) : bool :=
  existsb (String.eqb x) set.

(** ** Naming *)

Definition createServiceId (entityType : string) : Node :=
  Identifier (entityType ++ "Service").

Definition createServiceBaseId (entityType : string) : Node :=
  Identifier (entityType ++ "ServiceBase").

(** ** The mutation data mapping *)

(** [memberExpression`${ARGS_ID}.${DATA_ID}`] *)
Definition ARGS_DATA : Node := MemberExpression ARGS_ID DATA_ID.

Definition createMutationDataMapping (mappings : list Node) : Node :=
  match mappings with
  | [] => ARGS_ID
  | _ =>
      ObjectExpression
        [ SpreadProperty ARGS_ID;
          ObjectProperty DATA_ID
            (ObjectExpression (SpreadProperty ARGS_DATA :: mappings)) ]
  end.

(** The callback of [passwordFields.map] that builds the create mapping:
    [field: await this.passwordService.hash(args.data.field)]. *)
Definition createArgsProperty (field : EntityField) : Node :=
  let fieldId := Identifier (name field) in
  ObjectProperty fieldId
    (AwaitExpression
       (CallExpression HASH_MEMBER_EXPRESSION
          [MemberExpression ARGS_DATA fieldId])).

(** The callback of [passwordFields.map] that builds the update mapping:
    [field: args.data.field && await transformStringFieldUpdateInput(
       args.data.field, (password) => this.passwordService.hash(password))]. *)
Definition updateArgsProperty (field : EntityField) : Node :=
  let fieldId := Identifier (name field) in
  let valueMemberExpression := MemberExpression ARGS_DATA fieldId in
  ObjectProperty fieldId
    (LogicalExpression "&&" valueMemberExpression
       (AwaitExpression
          (CallExpression TRANSFORM_STRING_FIELD_UPDATE_INPUT_ID
             [ MemberExpression ARGS_DATA fieldId;
               ArrowFunctionExpression [Identifier "password"]
                 (CallExpression HASH_MEMBER_EXPRESSION
                    [Identifier "password"]) ]))).

(** The substitution mapping: the object literal of [createServiceModules],
    as the list of its entries in the order they are written. *)
Definition Mapping := list (string * Node).

Fixpoint lookup (mapping : Mapping) (key : string) : option Node :=
  match mapping with
  | [] => None
  | (k, v) :: rest => if String.eqb k key then Some v else lookup rest key
  end.

Definition passwordFieldsOf (entity : Entity) : list EntityField :=
  filter isPasswordField (fields entity).

Definition createMapping (entityName entityType : string) (entity : Entity)
  : Mapping :=
  let serviceId := createServiceId entityType in
  let serviceBaseId := createServiceBaseId entityType in
  let delegateId := Identifier entityName in
  let passwordFields := passwordFieldsOf entity in
  [ ("SERVICE", serviceId);
    ("SERVICE_BASE", serviceBaseId);
    ("ENTITY", Identifier entityType);
    ("FIND_MANY_ARGS", Identifier ("FindMany" ++ entityType ++ "Args"));
    ("FIND_ONE_ARGS", Identifier ("FindOne" ++ entityType ++ "Args"));
    ("CREATE_ARGS", Identifier (entityType ++ "CreateArgs"));
    ("UPDATE_ARGS", Identifier (entityType ++ "UpdateArgs"));
    ("DELETE_ARGS", Identifier (entityType ++ "DeleteArgs"));
    ("DELEGATE", delegateId);
    ("CREATE_ARGS_MAPPING",
      createMutationDataMapping (map createArgsProperty passwordFields));
    ("UPDATE_ARGS_MAPPING",
      createMutationDataMapping (map updateArgsProperty passwordFields)) ].

(** ** Reading an object expression *)

(** The value of the last property of an object expression's property list
    that is keyed by the identifier [key]: the one that wins when the
    object is built. *)
Fixpoint lastValueOf (key : string) (properties : list Node) : option Node :=
  match properties with
  | [] => None
  | p :: rest =>
      match lastValueOf key rest with
      | Some v => Some v
      | None =>
          match p with
          | ObjectProperty (Identifier k) v =>
              if String.eqb k key then Some v else None
          | _ => None
          end
      end
  end.


(** ** Helpers of [util/ast.ts] *)
Module AstUtil.

(** Modelled from the spec: [interpolate] of [util/ast.ts] is not part of
    the sources at hand.  The spec has it walk the tree and replace every
    identifier that is a key of the mapping with the mapped node, in every
    syntactic position, and leave every other node as it is. *)
Fixpoint interpolateNode (mapping : Mapping) (n : Node) : Node :=
  let go := interpolateNode mapping in
  match n with
  | Identifier name =>
      match lookup mapping name with Some replacement => replacement | None => n end
  | ThisExpression | Super | CommentLine _ => n
  | MemberExpression o p => MemberExpression (go o) (go p)
  | CallExpression c args => CallExpression (go c) (map go args)
  | AwaitExpression a => AwaitExpression (go a)
  | LogicalExpression op l r => LogicalExpression op (go l) (go r)
  | ArrowFunctionExpression ps b => ArrowFunctionExpression (map go ps) (go b)
  | ObjectExpression ps => ObjectExpression (map go ps)
  | SpreadProperty a => SpreadProperty (go a)
  | ObjectProperty k v => ObjectProperty (go k) (go v)
  | TSParameterProperty acc p t => TSParameterProperty acc (go p) (go t)
  | ExpressionStatement e => ExpressionStatement (go e)
  | ReturnStatement a => ReturnStatement (go a)
  | VariableDeclaration d i => VariableDeclaration d (go i)
  | TSInterfaceDeclaration d i => TSInterfaceDeclaration d (go i)
  | ImportSpecifier i => ImportSpecifier (go i)
  | ImportDeclaration specs source => ImportDeclaration (map go specs) source
  | ClassDeclaration d i sup body =>
      ClassDeclaration d (go i) (option_map go sup) (map go body)
  | ClassMethod kind key async ps body =>
      ClassMethod kind (go key) async (map go ps) (map go body)
  end.

Definition interpolate (file : File) (mapping : Mapping) : File :=
  map (interpolateNode mapping) file.

(** Modelled from the spec: the scaffold strippers of [util/ast.ts] are not
    part of the sources at hand.  The spec has them remove the declarations
    and comment markers that only keep a template well-formed: declared
    classes, declared variables, declared interfaces, and the
    diagnostic-suppression and lint-suppression comments.  [removeNodes]
    drops the nodes that satisfy [p] from every statement list. *)
Fixpoint removeNodes (p : Node -> bool) (n : Node) : Node :=
  let keep := fun body => filter (fun m => negb (p m)) (map (removeNodes p) body) in
  match n with
  | ClassDeclaration d i sup body => ClassDeclaration d i sup (keep body)
  | ClassMethod kind key async ps body => ClassMethod kind key async ps (keep body)
  | _ => n
  end.

Definition removeFrom (p : Node -> bool) (file : File) : File :=
  filter (fun n => negb (p n)) (map (removeNodes p) file).

Fixpoint includes (sub s : string) : bool :=
  String.prefix sub s
  || match s with EmptyString => false | String _ s' => includes sub s' end.

Definition isTSClassDeclare (n : Node) : bool :=
  match n with ClassDeclaration true _ _ _ => true | _ => false end.

Definition isTSVariableDeclare (n : Node) : bool :=
  match n with VariableDeclaration true _ => true | _ => false end.

Definition isTSInterfaceDeclare (n : Node) : bool :=
  match n with TSInterfaceDeclaration true _ => true | _ => false end.

Definition isTSIgnoreComment (n : Node) : bool :=
  match n with CommentLine value => includes "@ts-ignore" value | _ => false end.

Definition isESLintComment (n : Node) : bool :=
  match n with CommentLine value => includes "eslint-disable" value | _ => false end.

Definition removeTSClassDeclares : File -> File := removeFrom isTSClassDeclare.
Definition removeTSIgnoreComments : File -> File := removeFrom isTSIgnoreComment.
Definition removeESLintComments : File -> File := removeFrom isESLintComment.
Definition removeTSVariableDeclares : File -> File := removeFrom isTSVariableDeclare.
Definition removeTSInterfaceDeclares : File -> File := removeFrom isTSInterfaceDeclare.

(** Modelled from the spec: [importNames] and [addImports] of [util/ast.ts]
    are not part of the sources at hand.  The spec has [addImports] append
    import statements and de-duplicate them by imported symbol: a symbol
    the file imports already is not imported again. *)
Definition importNames (names : list Node) (source : string) : Node :=
  ImportDeclaration (map ImportSpecifier names) source.

Definition importedNames (n : Node) : list string :=
  match n with
  | ImportDeclaration specs _ =>
      flat_map (fun s => match s with
                         | ImportSpecifier (Identifier x) => [x]
                         | _ => []
                         end) specs
  | _ => []
  end.

Definition isImported (file : File) (spec : Node) : bool :=
  match spec with
  | ImportSpecifier (Identifier x) => has (flat_map importedNames file) x
  | _ => false
  end.

Definition addImport (file : File) (declaration : Node) : File :=
  match declaration with
  | ImportDeclaration specs source =>
      match filter (fun s => negb (isImported file s)) specs with
      | [] => file
      | fresh => file ++ [ImportDeclaration fresh source]
      end
  | _ => file
  end.

Definition addImports (file : File) (imports : list Node) : File :=
  fold_left addImport imports file.

(** Modelled from the spec: [getClassDeclarationById] of [util/ast.ts] is
    not part of the sources at hand.  The spec has it locate the class
    declaration by its known identifier and fail when there is none.  The
    code keeps the result as a reference into the file and mutates the
    class through it; the reference is the position of the class among the
    file's statements, and [None] stands for the thrown error. *)
Definition isClassNamed (id : Node) (n : Node) : bool :=
  match n, identifierName id with
  | ClassDeclaration _ (Identifier x) _ _, Some y => String.eqb x y
  | _, _ => false
  end.

Fixpoint findIndex {A : Type} (p : A -> bool) (l : list A) : option nat :=
  match l with
  | [] => None
  | x :: rest => if p x then Some 0 else option_map S (findIndex p rest)
  end.

Definition getClassDeclarationById (file : File) (id : Node) : option nat :=
  findIndex (isClassNamed id) file.

(** Replace the statement at a position: the write through a reference. *)
Fixpoint setAt {A : Type} (l : list A) (i : nat) (x : A) : list A :=
  match l, i with
  | [], _ => []
  | _ :: rest, 0 => x :: rest
  | y :: rest, S j => y :: setAt rest j x
  end.

(** Modelled from the spec: [addIdentifierToConstructorSuperCall] of
    [util/ast.ts] is not part of the sources at hand.  The spec has it
    splice the identifier into the argument list of the existing call to
    the superclass constructor, keeping the existing arguments in their
    order and appending the new one. *)
Definition addToSuperCall (identifier : Node) (statement : Node) : Node :=
  match statement with
  | ExpressionStatement (CallExpression Super args) =>
      ExpressionStatement (CallExpression Super (args ++ [identifier]))
  | _ => statement
  end.

Definition addToConstructor (identifier : Node) (member : Node) : Node :=
  match member with
  | ClassMethod kind key async ps body =>
      if String.eqb kind "constructor"
      then ClassMethod kind key async ps (map (addToSuperCall identifier) body)
      else member
  | _ => member
  end.

Definition addToClass (identifier : Node) (statement : Node) : Node :=
  match statement with
  | ClassDeclaration d i sup body =>
      ClassDeclaration d i sup (map (addToConstructor identifier) body)
  | _ => statement
  end.

Definition addIdentifierToConstructorSuperCall (file : File) (identifier : Node)
  : File :=
  map (addToClass identifier) file.

(** The argument lists of the superclass-constructor calls of a file, in
    the order the calls appear. *)
Definition superCallsOfStatement (statement : Node) : list (list Node) :=
  match statement with
  | ExpressionStatement (CallExpression Super args) => [args]
  | _ => []
  end.

Definition superCallsOfMember (member : Node) : list (list Node) :=
  match member with
  | ClassMethod kind _ _ _ body =>
      if String.eqb kind "constructor" then flat_map superCallsOfStatement body
      else []
  | _ => []
  end.

Definition superCallsOfClass (statement : Node) : list (list Node) :=
  match statement with
  | ClassDeclaration _ _ _ body => flat_map superCallsOfMember body
  | _ => []
  end.


End AstUtil.
Import AstUtil.

(** ** Helpers of [util/nestjs-code-generation.ts] *)
Module NestjsCodeGeneration.

(** Modelled from the spec: [addInjectableDependency] is not part of the
    sources at hand.  The spec has it add a constructor-assigned member of
    the collaborator's type with the given visibility, never add a member
    twice, and fail on a template that lacks the expected member (here the
    constructor); [None] stands for the thrown error. *)
Definition declaresParameter (name : string) (param : Node) : bool :=
  match param with
  | TSParameterProperty _ (Identifier x) _ => String.eqb x name
  | _ => false
  end.

Fixpoint addParameter (members : list Node) (param : Node) (name : string)
  : option (list Node) :=
  match members with
  | [] => None
  | ClassMethod kind key async ps body :: rest =>
      if String.eqb kind "constructor" then
        if existsb (declaresParameter name) ps
        then Some (ClassMethod kind key async ps body :: rest)
        else Some (ClassMethod kind key async (ps ++ [param]) body :: rest)
      else option_map (cons (ClassMethod kind key async ps body))
                      (addParameter rest param name)
  | member :: rest => option_map (cons member) (addParameter rest param name)
  end.

Definition addInjectableDependency (classDeclaration : Node) (name : string)
    (typeId : Node) (accessibility : string) : option Node :=
  match classDeclaration with
  | ClassDeclaration d i sup body =>
      option_map (ClassDeclaration d i sup)
        (addParameter body
           (TSParameterProperty accessibility (Identifier name) typeId) name)
  | _ => None
  end.

End NestjsCodeGeneration.
Import NestjsCodeGeneration.

(** ** Helpers of [util/module.ts] *)
Module ModuleUtil.

Definition slash : ascii := "/"%char.
Definition backslash : ascii := ascii_of_nat 92.
Definition dot : ascii := "."%char.

(** The segments of a path, split at every ["/"]. *)
Fixpoint split (s : string) : list string :=
  match s with
  | EmptyString => [EmptyString]
  | String c s' =>
      if Ascii.eqb c slash then EmptyString :: split s'
      else match split s' with
           | [] => [String c EmptyString]
           | segment :: rest => String c segment :: rest
           end
  end.

Fixpoint join (segments : list string) : string :=
  match segments with
  | [] => EmptyString
  | [segment] => segment
  | segment :: rest => (segment ++ "/" ++ join rest)%string
  end.

(** The directory of a file: all its segments but the last. *)
Definition dirname (segments : list string) : list string := removelast segments.

(** The way from directory [from] to [to]: the common leading segments are
    dropped, every segment left in [from] is climbed with [".."]. *)
Fixpoint relative (from to : list string) : list string :=
  match from, to with
  | f :: from', t :: to' =>
      if String.eqb f t then relative from' to'
      else map (fun _ => "..") from ++ to
  | _, _ => map (fun _ => "..") from ++ to
  end.

(** No ["."] and no ["/"] in the text: it can be a file extension. *)
Fixpoint isExtension (s : string) : bool :=
  match s with
  | EmptyString => true
  | String c s' => negb (Ascii.eqb c dot) && negb (Ascii.eqb c slash) && isExtension s'
  end.

Fixpoint removeExt (s : string) : string :=
  match s with
  | EmptyString => EmptyString
  | String c s' =>
      if Ascii.eqb c dot && isExtension s' then EmptyString
      else String c (removeExt s')
  end.

(** Directory separators are normalized to ["/"]. *)
Fixpoint normalize (s : string) : string :=
  match s with
  | EmptyString => EmptyString
  | String c s' =>
      String (if Ascii.eqb c backslash then slash else c) (normalize s')
  end.

(** Modelled from the spec: [relativeImportPath] of [util/module.ts] is not
    part of the sources at hand.  The spec has it compute the import path
    from one module's location to another, normalize the directory
    separators and omit the extension; a path that does not climb starts
    with ["./"]. *)
Definition relativeImportPath (from to : string) : string :=
  let relativePath := join (relative (dirname (split from)) (split (removeExt to))) in
  normalize (if String.prefix "." relativePath then relativePath
             else ("./" ++ relativePath)%string).


End ModuleUtil.
Import ModuleUtil.

(** ** The generator's effects

    Each of the two functions reads its template into a local [file] and
    then mutates that one tree through helper calls.  [State] holds the
    tree together with the sequence of mutations applied to it so far; an
    exception ends the run and leaves the state as it was when thrown. *)
Module Effect.

Inductive Op : Type :=
  | OpReadFile (path : string)
  | OpInterpolate (mapping : Mapping)
  | OpRemoveTSClassDeclares
  | OpAddImports (imports : list Node)
  | OpGetClassDeclarationById (id : Node)
  | OpAddInjectableDependency (name : string) (typeId : Node) (accessibility : string)
  | OpAddIdentifierToConstructorSuperCall (identifier : Node)
  | OpSetAsync (member : Node)
  | OpRemoveTSIgnoreComments
  | OpRemoveESLintComments
  | OpRemoveTSVariableDeclares
  | OpRemoveTSInterfaceDeclares.

Inductive Error : Type :=
  | TargetNotFound (id : Node)
  | TemplateMalformed.

Record State : Type := { file : File; trace : list Op }.

Definition M (A : Type) : Type := State -> (Error + A) * State.

Definition ret {A : Type} (a : A) : M A := fun s => (inr a, s).

Definition bind {A B : Type} (m : M A) (k : A -> M B) : M B :=
  fun s => match m s with
           | (inr a, s') => k a s'
           | (inl e, s') => (inl e, s')
           end.

Definition throw {A : Type} (e : Error) : M A := fun s => (inl e, s).

Definition getFile : M File := fun s => (inr (file s), s).

Definition log (op : Op) : M unit :=
  fun s => (inr tt, {| file := file s; trace := trace s ++ [op] |}).

Definition putFile (f : File) : M unit :=
  fun s => (inr tt, {| file := f; trace := trace s |}).

Definition initial : State := {| file := []; trace := [] |}.

Definition run {A : Type} (m : M A) : (Error + A) * State := m initial.

End Effect.
Import Effect.

Declare Scope effect_scope.
Delimit Scope effect_scope with effect.
Notation "x <- m ;; k" := (bind m (fun x => k))
  (at level 61, m at next level, right associativity) : effect_scope.
Notation "m ;; k" := (bind m (fun _ => k))
  (at level 61, right associativity) : effect_scope.
Local Open Scope effect_scope.

(** A helper that rewrites the file in place. *)
Definition apply (op : Op) (f : File -> File) : M unit :=
  file <- getFile ;; log op ;; putFile (f file).

(** The class a reference points at, and the write through the reference. *)
Definition readClass (classDeclaration : nat) : M Node :=
  file <- getFile ;;
  match nth_error file classDeclaration with
  | Some node => ret node
  | None => throw TemplateMalformed
  end.

Definition writeClass (classDeclaration : nat) (node : Node) : M unit :=
  file <- getFile ;; putFile (setAt file classDeclaration node).

(** [for (const member of members)] with a body that may mutate the
    member: the members are visited in order, each replaced by what the
    body leaves. *)
Fixpoint forEach (members : list Node) (body : Node -> M Node) : M (list Node) :=
  match members with
  | [] => ret []
  | member :: rest =>
      member' <- body member ;;
      rest' <- forEach rest body ;;
      ret (member' :: rest')
  end.

Definition classBody (classDeclaration : Node) : list Node :=
  match classDeclaration with ClassDeclaration _ _ _ body => body | _ => [] end.

Definition withClassBody (classDeclaration : Node) (body : list Node) : Node :=
  match classDeclaration with
  | ClassDeclaration d i sup _ => ClassDeclaration d i sup body
  | _ => classDeclaration
  end.

(** [member.async = true] *)
Definition setAsync (member : Node) : M Node :=
  match member with
  | ClassMethod kind key _ ps body =>
      log (OpSetAsync key) ;; ret (ClassMethod kind key true ps body)
  | _ => ret member
  end.

(** [member.key] and [member.key.name], read once the checks passed. *)
Definition keyOf (member : Node) : Node :=
  match member with ClassMethod _ key _ _ _ => key | _ => member end.

Definition nameOf (id : Node) : string :=
  match id with Identifier name => name | _ => EmptyString end.

(** ** The generator: [create-service.ts] *)

(** [Module] of [types.ts]: a destination path and the rendered code. *)
Record Module_ : Type := { path : string; code : string }.

Section CreateService.

(** [SRC_DIRECTORY] of [server/constants.ts], the templates as [readFile]
    of [util/module.ts] parses them, and [print] of [recast]: none is part
    of the sources at hand, and what follows holds whatever they are. *)
Variable SRC_DIRECTORY : string.
Variable readFile : string -> File.
Variable print : File -> string.

Definition PASSWORD_SERVICE_MODULE_PATH : string :=
  SRC_DIRECTORY ++ "/auth/password.service.ts".

Definition PRISMA_UTIL_MODULE_PATH : string :=
  SRC_DIRECTORY ++ "/prisma.util.ts".

Definition modulePathOf (entityName : string) : string :=
  SRC_DIRECTORY ++ "/" ++ entityName ++ "/" ++ entityName ++ ".service.ts".

Definition moduleBasePathOf (entityName : string) : string :=
  SRC_DIRECTORY ++ "/" ++ entityName ++ "/base/" ++ entityName ++ ".service.base.ts".

Definition createServiceModule (entityName : string) (mapping : Mapping)
    (passwordFields : list EntityField) (serviceId serviceBaseId : Node)
  : M Module_ :=
  let modulePath := modulePathOf entityName in
  let moduleBasePath := moduleBasePathOf entityName in
  apply (OpReadFile serviceTemplatePath) (fun _ => readFile serviceTemplatePath) ;;

  apply (OpInterpolate mapping) (fun file => interpolate file mapping) ;;
  apply OpRemoveTSClassDeclares removeTSClassDeclares ;;

  (let imports :=
     [importNames [serviceBaseId] (relativeImportPath modulePath moduleBasePath)] in
   apply (OpAddImports imports) (fun file => addImports file imports)) ;;

  (if negb (Nat.eqb (List.length passwordFields) 0) then
     log (OpGetClassDeclarationById serviceId) ;;
     file <- getFile ;;
     match getClassDeclarationById file serviceId with
     | None => throw (TargetNotFound serviceId)
     | Some classDeclaration =>
         log (OpAddInjectableDependency (nameOf PASSWORD_SERVICE_MEMBER_ID)
                PASSWORD_SERVICE_ID "protected") ;;
         class <- readClass classDeclaration ;;
         match addInjectableDependency class (nameOf PASSWORD_SERVICE_MEMBER_ID)
                 PASSWORD_SERVICE_ID "protected" with
         | None => throw TemplateMalformed
         | Some class' =>
             writeClass classDeclaration class' ;;

             apply (OpAddIdentifierToConstructorSuperCall PASSWORD_SERVICE_MEMBER_ID)
               (fun file =>
                  addIdentifierToConstructorSuperCall file PASSWORD_SERVICE_MEMBER_ID) ;;

             class <- readClass classDeclaration ;;
             members <- forEach (classBody class) (fun member =>
               if ClassMethod_check member
                  && Identifier_check (keyOf member)
                  && has PASSWORD_FIELD_ASYNC_METHODS (nameOf (keyOf member))
               then setAsync member
               else ret member) ;;
             writeClass classDeclaration (withClassBody class members) ;;

             (let imports :=
                [importNames [PASSWORD_SERVICE_ID]
                   (relativeImportPath modulePath PASSWORD_SERVICE_MODULE_PATH)] in
              apply (OpAddImports imports) (fun file => addImports file imports))
         end
     end
   else ret tt) ;;

  apply OpRemoveTSIgnoreComments removeTSIgnoreComments ;;
  apply OpRemoveESLintComments removeESLintComments ;;
  apply OpRemoveTSVariableDeclares removeTSVariableDeclares ;;
  apply OpRemoveTSInterfaceDeclares removeTSInterfaceDeclares ;;

  file <- getFile ;;
  ret {| path := modulePath; code := print file |}.

Definition createServiceBaseModule (entityName : string) (mapping : Mapping)
    (passwordFields : list EntityField) (serviceId serviceBaseId : Node)
  : M Module_ :=
  let moduleBasePath := moduleBasePathOf entityName in
  apply (OpReadFile serviceBaseTemplatePath)
    (fun _ => readFile serviceBaseTemplatePath) ;;

  apply (OpInterpolate mapping) (fun file => interpolate file mapping) ;;
  apply OpRemoveTSClassDeclares removeTSClassDeclares ;;

  (if negb (Nat.eqb (List.length passwordFields) 0) then
     log (OpGetClassDeclarationById serviceBaseId) ;;
     file <- getFile ;;
     match getClassDeclarationById file serviceBaseId with
     | None => throw (TargetNotFound serviceBaseId)
     | Some classDeclaration =>
         log (OpAddInjectableDependency (nameOf PASSWORD_SERVICE_MEMBER_ID)
                PASSWORD_SERVICE_ID "protected") ;;
         class <- readClass classDeclaration ;;
         match addInjectableDependency class (nameOf PASSWORD_SERVICE_MEMBER_ID)
                 PASSWORD_SERVICE_ID "protected" with
         | None => throw TemplateMalformed
         | Some class' =>
             writeClass classDeclaration class' ;;

             class <- readClass classDeclaration ;;
             members <- forEach (classBody class) (fun member =>
               if ClassMethod_check member
                  && Identifier_check (keyOf member)
                  && has PASSWORD_FIELD_ASYNC_METHODS (nameOf (keyOf member))
               then setAsync member
               else ret member) ;;
             writeClass classDeclaration (withClassBody class members) ;;

             (let imports :=
                [importNames [PASSWORD_SERVICE_ID]
                   (relativeImportPath moduleBasePath PASSWORD_SERVICE_MODULE_PATH)] in
              apply (OpAddImports imports) (fun file => addImports file imports)) ;;

             (let imports :=
                [importNames [TRANSFORM_STRING_FIELD_UPDATE_INPUT_ID]
                   (relativeImportPath moduleBasePath PRISMA_UTIL_MODULE_PATH)] in
              apply (OpAddImports imports) (fun file => addImports file imports))
         end
     end
   else ret tt) ;;

  apply OpRemoveTSIgnoreComments removeTSIgnoreComments ;;
  apply OpRemoveESLintComments removeESLintComments ;;
  apply OpRemoveTSVariableDeclares removeTSVariableDeclares ;;
  apply OpRemoveTSInterfaceDeclares removeTSInterfaceDeclares ;;

  file <- getFile ;;
  ret {| path := moduleBasePath; code := print file |}.

(** The two calls are awaited one after the other, each on a tree of its
    own; the first exception rejects the whole call. *)
Definition createServiceModules (entityName entityType : string) (entity : Entity)
  : Error + list Module_ :=
  let serviceId := createServiceId entityType in
  let serviceBaseId := createServiceBaseId entityType in
  let passwordFields := passwordFieldsOf entity in
  let mapping := createMapping entityName entityType entity in
  match fst (run (createServiceModule entityName mapping passwordFields
                    serviceId serviceBaseId)) with
  | inl e => inl e
  | inr service =>
      match fst (run (createServiceBaseModule entityName mapping passwordFields
                        serviceId serviceBaseId)) with
      | inl e => inl e
      | inr serviceBase => inr [service; serviceBase]
      end
  end.

(** The runs behind the two modules of one [createServiceModules] call,
    with the tree and the sequence of mutations each ends in. *)
Definition serviceRun (entityName entityType : string) (entity : Entity)
  : (Error + Module_) * State :=
  run (createServiceModule entityName (createMapping entityName entityType entity)
         (passwordFieldsOf entity) (createServiceId entityType)
         (createServiceBaseId entityType)).

Definition serviceBaseRun (entityName entityType : string) (entity : Entity)
  : (Error + Module_) * State :=
  run (createServiceBaseModule entityName (createMapping entityName entityType entity)
         (passwordFieldsOf entity) (createServiceId entityType)
         (createServiceBaseId entityType)).

End CreateService.

(** ** Evaluating the generated expressions

    The meaning JavaScript gives to the expression forms the mappings are
    made of, so that what a generated expression evaluates to, and which
    functions it invokes on the way, can be stated.  Host functions (the
    hashing collaborator, the transform helper) are opaque: a call to one
    is recorded and answered by [host].  Awaiting is modelled on settled
    values: [await e] evaluates to the value [e] settles to.

    Objects are ordinary objects: an object has its own enumerable
    properties and, beyond them, the members every object inherits from
    [Object.prototype].  Where JavaScript's answer depends on what is not
    modelled (the members of primitives and of functions, an object
    literal that sets its prototype with the key [__proto__], syntax
    outside the forms below) the evaluator answers [Unsupported] rather
    than a value. *)
Module Js.

Inductive Value : Type :=
  | VUndefined
  | VNull
  | VBoolean (b : bool)
  | VNumber (n : nat)
  | VString (s : string)
  | VObject (entries : list (string * Value))
  | VHost (name : string)
  | VClosure (env : list (string * Value)) (this : Value)
             (params : list Node) (body : Node)
  | VInherited (member : string).

Definition Env := list (string * Value).

(** The calls made to host functions, oldest first. *)
Definition Calls := list (string * list Value).

Inductive Result : Type :=
  | Returned (v : Value)
  | Threw
  | OutOfFuel
  | Unsupported.

Definition truthy (v : Value) : bool :=
  match v with
  | VUndefined | VNull => false
  | VBoolean b => b
  | VNumber n => negb (Nat.eqb n 0)
  | VString s => negb (String.eqb s EmptyString)
  | _ => true
  end.

Fixpoint get (entries : Env) (key : string) : option Value :=
  match entries with
  | [] => None
  | (k, v) :: rest => if String.eqb k key then Some v else get rest key
  end.

Fixpoint set (entries : Env) (key : string) (v : Value) : Env :=
  match entries with
  | [] => [(key, v)]
  | (k, w) :: rest =>
      if String.eqb k key then (k, v) :: rest else (k, w) :: set rest key v
  end.

(** The members of [Object.prototype]: every ordinary object that has no
    property of its own under one of these names reads the inherited
    member there, a built-in function or, under [__proto__], the prototype
    itself; [VInherited] stands for it, and it is truthy. *)
Definition OBJECT_PROTOTYPE_MEMBERS : list string :=
  [ "constructor"; "hasOwnProperty"; "isPrototypeOf"; "propertyIsEnumerable";
    "toLocaleString"; "toString"; "valueOf"; "__proto__";
    "__defineGetter__"; "__defineSetter__"; "__lookupGetter__"; "__lookupSetter__" ].

Definition inherited (property : string) : bool :=
  has OBJECT_PROTOTYPE_MEMBERS property.

(** What [object.property] reads on an ordinary object with these own
    properties: the own property when there is one, else the inherited
    member when the name is one of [Object.prototype]'s, else
    [undefined]. *)
Definition read (entries : Env) (property : string) : Value :=
  match get entries property with
  | Some v => v
  | None => if inherited property then VInherited property else VUndefined
  end.

(** [object.property]: a read from [undefined] or [null] throws. *)
Definition getMember (object : Value) (property : string) : Result :=
  match object with
  | VUndefined | VNull => Threw
  | VObject entries => Returned (read entries property)
  | _ => Unsupported
  end.

(** The parameters of an arrow function bound to the arguments of a call:
    a parameter without an argument is [undefined], an argument without a
    parameter is dropped. *)
Fixpoint bindParams (params : list Node) (args : list Value) : option Env :=
  match params with
  | [] => Some []
  | Identifier x :: rest =>
      match bindParams rest (tl args) with
      | Some bound => Some ((x, hd VUndefined args) :: bound)
      | None => None
      end
  | _ => None
  end.

Section Eval.

Variable host : string -> list Value -> Value.

Fixpoint eval (fuel : nat) (this : Value) (env : Env) (e : Node) (calls : Calls)
  : Result * Calls :=
  match fuel with
  | 0 => (OutOfFuel, calls)
  | S fuel =>
      let evalList :=
        fix evalList (es : list Node) (calls : Calls) : option (list Value) * Result * Calls :=
          match es with
          | [] => (Some [], Returned VUndefined, calls)
          | e :: rest =>
              match eval fuel this env e calls with
              | (Returned v, calls') =>
                  match evalList rest calls' with
                  | (Some vs, r, calls'') => (Some (v :: vs), r, calls'')
                  | failed => failed
                  end
              | (r, calls') => (None, r, calls')
              end
          end in
      let evalProperties :=
        fix evalProperties (ps : list Node) (acc : Env) (calls : Calls) : Result * Calls :=
          match ps with
          | [] => (Returned (VObject acc), calls)
          | SpreadProperty a :: rest =>
              match eval fuel this env a calls with
              | (Returned (VObject entries), calls') =>
                  evalProperties rest
                    (fold_left (fun o kv => set o (fst kv) (snd kv)) entries acc) calls'
              | (Returned (VString s), calls') =>
                  if String.eqb s EmptyString then evalProperties rest acc calls'
                  else (Unsupported, calls')
              | (Returned _, calls') => evalProperties rest acc calls'
              | failed => failed
              end
          | ObjectProperty (Identifier k) v :: rest =>
              if String.eqb k "__proto__" then (Unsupported, calls)
              else
                match eval fuel this env v calls with
                | (Returned w, calls') => evalProperties rest (set acc k w) calls'
                | failed => failed
                end
          | _ => (Unsupported, calls)
          end in
      match e with
      | Identifier x =>
          (match get env x with Some v => Returned v | None => Threw end, calls)
      | ThisExpression => (Returned this, calls)
      | MemberExpression object (Identifier property) =>
          match eval fuel this env object calls with
          | (Returned o, calls') => (getMember o property, calls')
          | failed => failed
          end
      | AwaitExpression argument => eval fuel this env argument calls
      | LogicalExpression operator lhs rhs =>
          match eval fuel this env lhs calls with
          | (Returned l, calls') =>
              if String.eqb operator "&&" then
                if truthy l then eval fuel this env rhs calls'
                else (Returned l, calls')
              else if String.eqb operator "||" then
                if truthy l then (Returned l, calls')
                else eval fuel this env rhs calls'
              else (Unsupported, calls')
          | failed => failed
          end
      | ArrowFunctionExpression params body =>
          (Returned (VClosure env this params body), calls)
      | ObjectExpression properties => evalProperties properties [] calls
      | CallExpression callee arguments =>
          match eval fuel this env callee calls with
          | (Returned f, calls') =>
              match evalList arguments calls' with
              | (Some args, _, calls'') =>
                  match f with
                  | VHost name =>
                      (Returned (host name args), calls'' ++ [(name, args)])
                  | VClosure cenv cthis params body =>
                      match bindParams params args with
                      | Some bound => eval fuel cthis (bound ++ cenv) body calls''
                      | None => (Unsupported, calls'')
                      end
                  | VInherited _ => (Unsupported, calls'')
                  | _ => (Threw, calls'')
                  end
              | (None, r, calls'') => (r, calls'')
              end
          | failed => failed
          end
      | _ => (Unsupported, calls)
      end
  end.

End Eval.

End Js.

(** ** A worked input

    The [Customer] entity of the spec's scenario, the [Tag] entity without
    sensitive fields, and two templates of the shape the generator
    expects. *)
Module Example.

Definition customer : Entity :=
  {| fields := [ {| name := "name"; dataType := SingleLineText |};
                 {| name := "password"; dataType := Password |} ] |}.

Definition tag : Entity :=
  {| fields := [ {| name := "label"; dataType := SingleLineText |} ] |}.

Definition prismaParameter : Node :=
  TSParameterProperty "protected" (Identifier "prisma") (Identifier "PrismaService").

Definition method (name : string) (mappingSlot : Node) : Node :=
  ClassMethod "method" (Identifier name) false [Identifier "args"]
    [ ReturnStatement
        (CallExpression
           (MemberExpression
              (MemberExpression (MemberExpression ThisExpression (Identifier "prisma"))
                 (Identifier "DELEGATE"))
              (Identifier name))
           [mappingSlot]) ].

Definition serviceTemplate : File :=
  [ ImportDeclaration [ImportSpecifier (Identifier "Injectable")] "@nestjs/common";
    CommentLine " @ts-ignore";
    ClassDeclaration true (Identifier "SERVICE_BASE") None [];
    ClassDeclaration false (Identifier "SERVICE") (Some (Identifier "SERVICE_BASE"))
      [ ClassMethod "constructor" (Identifier "constructor") false [prismaParameter]
          [ExpressionStatement (CallExpression Super [Identifier "prisma"])] ] ].

Definition serviceBaseTemplate : File :=
  [ ImportDeclaration [ImportSpecifier (Identifier "PrismaService")] "nestjs-prisma";
    VariableDeclaration true (Identifier "CREATE_ARGS_MAPPING");
    VariableDeclaration true (Identifier "UPDATE_ARGS_MAPPING");
    TSInterfaceDeclaration true (Identifier "CREATE_ARGS");
    ClassDeclaration false (Identifier "SERVICE_BASE") None
      [ ClassMethod "constructor" (Identifier "constructor") false [prismaParameter] [];
        method "findMany" (Identifier "args");
        method "findOne" (Identifier "args");
        CommentLine " @ts-ignore";
        method "create" (Identifier "CREATE_ARGS_MAPPING");
        CommentLine " @ts-ignore";
        method "update" (Identifier "UPDATE_ARGS_MAPPING");
        method "delete" (Identifier "args") ] ].

Definition readFile (path : string) : File :=
  if String.eqb path serviceTemplatePath then serviceTemplate
  else if String.eqb path serviceBaseTemplatePath then serviceBaseTemplate
  else [].

(** A template directory in which the service template lacks its class. *)
Definition readMalformed (path : string) : File :=
  if String.eqb path serviceBaseTemplatePath then serviceBaseTemplate else [].




(** A small printer standing in for [recast]'s. *)
Local Open Scope string_scope.

Fixpoint printNode (n : Node) : string :=
  let printList :=
    fix printList (separator : string) (ns : list Node) : string :=
      match ns with
      | [] => EmptyString
      | [x] => printNode x
      | x :: rest => printNode x ++ separator ++ printList separator rest
      end in
  match n with
  | Identifier x => x
  | ThisExpression => "this"
  | Super => "super"
  | MemberExpression o p => printNode o ++ "." ++ printNode p
  | CallExpression c args => printNode c ++ "(" ++ printList ", " args ++ ")"
  | AwaitExpression a => "await " ++ printNode a
  | LogicalExpression op l r => printNode l ++ " " ++ op ++ " " ++ printNode r
  | ArrowFunctionExpression ps b =>
      "(" ++ printList ", " ps ++ ") => " ++ printNode b
  | ObjectExpression ps => "{" ++ printList ", " ps ++ "}"
  | SpreadProperty a => "..." ++ printNode a
  | ObjectProperty k v => printNode k ++ ": " ++ printNode v
  | TSParameterProperty acc p t => acc ++ " " ++ printNode p ++ ": " ++ printNode t
  | ExpressionStatement e => printNode e ++ ";"
  | ReturnStatement a => "return " ++ printNode a ++ ";"
  | CommentLine v => "/*" ++ v ++ " */"
  | VariableDeclaration d i =>
      (if d then "declare " else "") ++ "const " ++ printNode i ++ ";"
  | TSInterfaceDeclaration d i =>
      (if d then "declare " else "") ++ "interface " ++ printNode i ++ " {}"
  | ImportSpecifier i => printNode i
  | ImportDeclaration specs source =>
      "import { " ++ printList ", " specs ++ " } from '" ++ source ++ "';"
  | ClassDeclaration d i sup body =>
      (if d then "declare " else "") ++ "class " ++ printNode i
      ++ match sup with Some c => " extends " ++ printNode c | None => "" end
      ++ " { " ++ printList " " body ++ " }"
  | ClassMethod kind key async ps body =>
      (if async then "async " else "") ++ printNode key
      ++ "(" ++ printList ", " ps ++ ") { " ++ printList " " body ++ " }"
  end.

Fixpoint print (file : File) : string :=
  match file with
  | [] => EmptyString
  | statement :: rest => printNode statement ++ " " ++ print rest
  end.

Local Open Scope list_scope.

(** The state an update runs in when the caller left the password out. *)
Definition this : Js.Value :=
  Js.VObject [("passwordService", Js.VObject [("hash", Js.VHost "hash")])].

Definition env : Js.Env :=
  [ ("args", Js.VObject [("data", Js.VObject [("name", Js.VString "Ann")])]);
    ("transformStringFieldUpdateInput", Js.VHost "transformStringFieldUpdateInput") ].

Definition host (name : string) (args : list Js.Value) : Js.Value :=
  Js.VString "hashed".

End Example.

(** ** What the generator's steps amount to

    Pure descriptions of the loop over the class members and of the whole
    of each function, to state the properties against. *)

(** What the loop over the members leaves of one member. *)
Definition markAsync (member : Node) : Node :=
  match member with
  | ClassMethod kind (Identifier name) async ps body =>
      if has PASSWORD_FIELD_ASYNC_METHODS name
      then ClassMethod kind (Identifier name) true ps body
      else member
  | _ => member
  end.

(** The assignments [member.async = true] the loop makes, in order. *)
Definition asyncOp (member : Node) : list Op :=
  match member with
  | ClassMethod _ (Identifier name) _ _ _ =>
      if has PASSWORD_FIELD_ASYNC_METHODS name then [OpSetAsync (Identifier name)] else []
  | _ => []
  end.

Definition asyncOps (members : list Node) : list Op := flat_map asyncOp members.

(** The class declaration a lookup by identifier finds. *)
Definition findClass (file : File) (id : Node) : option Node :=
  find (isClassNamed id) file.

(** The methods of a class, each with its key and its [async] flag. *)
Definition methodFlags (classDeclaration : Node) : list (Node * bool) :=
  flat_map (fun member =>
    match member with
    | ClassMethod _ key async _ _ => [(key, async)]
    | _ => []
    end) (classBody classDeclaration).

(** Whether the loop picks a method with this key. *)
Definition isPasswordAsyncKey (key : Node) : bool :=
  match key with
  | Identifier name => has PASSWORD_FIELD_ASYNC_METHODS name
  | _ => false
  end.

(** The four strippers that close each function, composed. *)
Definition stripScaffold (file : File) : File :=
  removeTSInterfaceDeclares
    (removeTSVariableDeclares (removeESLintComments (removeTSIgnoreComments file))).

Definition stripOps : list Op :=
  [ OpRemoveTSIgnoreComments; OpRemoveESLintComments;
    OpRemoveTSVariableDeclares; OpRemoveTSInterfaceDeclares ].

(** Kinds of steps. *)
Definition isMutator (op : Op) : bool :=
  match op with
  | OpAddImports _ | OpAddInjectableDependency _ _ _
  | OpAddIdentifierToConstructorSuperCall _ | OpSetAsync _ => true
  | _ => false
  end.

Definition isStripper (op : Op) : bool :=
  match op with
  | OpRemoveTSClassDeclares | OpRemoveTSIgnoreComments | OpRemoveESLintComments
  | OpRemoveTSVariableDeclares | OpRemoveTSInterfaceDeclares => true
  | _ => false
  end.

Definition isLateStripper (op : Op) : bool :=
  match op with
  | OpRemoveTSIgnoreComments | OpRemoveESLintComments
  | OpRemoveTSVariableDeclares | OpRemoveTSInterfaceDeclares => true
  | _ => false
  end.

(** [before] holds of a trace when no step of kind [later] is followed,
    at any distance, by a step of kind [earlier]. *)
Fixpoint allBefore (earlier later : Op -> bool) (trace : list Op) : bool :=
  match trace with
  | [] => true
  | op :: rest =>
      (negb (later op) || forallb (fun o => negb (earlier o)) rest)
      && allBefore earlier later rest
  end.

Definition isSpliceOp (op : Op) : bool :=
  match op with OpAddIdentifierToConstructorSuperCall _ => true | _ => false end.

Definition isInjectionOp (op : Op) : bool :=
  match op with OpAddInjectableDependency _ _ _ => true | _ => false end.

Definition isSetAsyncOp (op : Op) : bool :=
  match op with OpSetAsync _ => true | _ => false end.

Definition isLookupOp (op : Op) : bool :=
  match op with OpGetClassDeclarationById _ => true | _ => false end.

(** The step imports the symbol named [symbol]. *)
Definition importsSymbol (symbol : string) (op : Op) : bool :=
  match op with
  | OpAddImports imports => has (flat_map importedNames imports) symbol
  | _ => false
  end.

(** The assignment of the injected member, as both functions make it. *)
Definition injectionOp : Op :=
  OpAddInjectableDependency "passwordService" PASSWORD_SERVICE_ID "protected".

Definition spliceOp : Op :=
  OpAddIdentifierToConstructorSuperCall PASSWORD_SERVICE_MEMBER_ID.

Section Outcome.

(** What tells the two functions apart: the destination path, the tree
    the mutators start on and the steps that led to it, the identifier of
    the target class, whether the super call is spliced, and the imports
    added at the end of the mutation. *)
Variable print : File -> string.
Variable destination : string.
Variable prepared : File.
Variable prefix : list Op.
Variable id : Node.
Variable splice : bool.
Variable imports : list (list Node).

(** The target class once the member is injected (and the super call
    spliced), as the loop finds it. *)
Definition targetOf (injected : Node) : Node :=
  if splice then addToClass PASSWORD_SERVICE_MEMBER_ID injected else injected.

Definition markedOf (injected : Node) : Node :=
  withClassBody (targetOf injected) (map markAsync (classBody (targetOf injected))).

(** The tree the mutators leave. *)
Definition mutatedFile (i : nat) (injected : Node) : File :=
  let injectedFile := setAt prepared i injected in
  let splicedFile :=
    if splice
    then addIdentifierToConstructorSuperCall injectedFile PASSWORD_SERVICE_MEMBER_ID
    else injectedFile in
  fold_left addImports imports (setAt splicedFile i (markedOf injected)).

(** The steps of the mutation. *)
Definition mutationOps (injected : Node) : list Op :=
  [OpGetClassDeclarationById id; injectionOp]
  ++ (if splice then [spliceOp] else [])
  ++ asyncOps (classBody (targetOf injected))
  ++ map OpAddImports imports.

Definition finished (file : File) (steps : list Op) : (Error + Module_) * State :=
  (inr {| path := destination; code := print (stripScaffold file) |},
   {| file := stripScaffold file; trace := steps ++ stripOps |}).

Definition failed (e : Error) (steps : list Op) : (Error + Module_) * State :=
  (inl e, {| file := prepared; trace := steps |}).

(** The outcome of either function, case by case. *)
Definition outcome (passwordFields : list EntityField) : (Error + Module_) * State :=
  match passwordFields with
  | [] => finished prepared prefix
  | _ :: _ =>
      match findClass prepared id, getClassDeclarationById prepared id with
      | Some class, Some i =>
          match addInjectableDependency class "passwordService"
                  PASSWORD_SERVICE_ID "protected" with
          | None =>
              failed TemplateMalformed
                (prefix ++ [OpGetClassDeclarationById id; injectionOp])
          | Some injected =>
              finished (mutatedFile i injected) (prefix ++ mutationOps injected)
          end
      | _, _ => failed (TargetNotFound id) (prefix ++ [OpGetClassDeclarationById id])
      end
  end.

End Outcome.

Section Outcomes.

Variable SRC_DIRECTORY : string.
Variable readFile : string -> File.
Variable print : File -> string.

Definition baseClassImport (entityName : string) (serviceBaseId : Node) : list Node :=
  [importNames [serviceBaseId]
     (relativeImportPath (modulePathOf SRC_DIRECTORY entityName)
        (moduleBasePathOf SRC_DIRECTORY entityName))].

Definition passwordServiceImport (from : string) : list Node :=
  [importNames [PASSWORD_SERVICE_ID]
     (relativeImportPath from (PASSWORD_SERVICE_MODULE_PATH SRC_DIRECTORY))].

Definition prismaUtilImport (from : string) : list Node :=
  [importNames [TRANSFORM_STRING_FIELD_UPDATE_INPUT_ID]
     (relativeImportPath from (PRISMA_UTIL_MODULE_PATH SRC_DIRECTORY))].

(** The tree on which the mutators of each function start, and the steps
    that lead to it. *)
Definition interpolated (templatePath : string) (mapping : Mapping) : File :=
  removeTSClassDeclares (interpolate (readFile templatePath) mapping).

Definition servicePrepared (entityName : string) (mapping : Mapping)
    (serviceBaseId : Node) : File :=
  addImports (interpolated serviceTemplatePath mapping)
    (baseClassImport entityName serviceBaseId).

Definition serviceBasePrepared (mapping : Mapping) : File :=
  interpolated serviceBaseTemplatePath mapping.

Definition servicePrefix (entityName : string) (mapping : Mapping)
    (serviceBaseId : Node) : list Op :=
  [ OpReadFile serviceTemplatePath; OpInterpolate mapping; OpRemoveTSClassDeclares;
    OpAddImports (baseClassImport entityName serviceBaseId) ].

Definition serviceBasePrefix (mapping : Mapping) : list Op :=
  [ OpReadFile serviceBaseTemplatePath; OpInterpolate mapping; OpRemoveTSClassDeclares ].

Definition serviceOutcome (entityName : string) (mapping : Mapping)
    (passwordFields : list EntityField) (serviceId serviceBaseId : Node)
  : (Error + Module_) * State :=
  outcome print (modulePathOf SRC_DIRECTORY entityName)
    (servicePrepared entityName mapping serviceBaseId)
    (servicePrefix entityName mapping serviceBaseId)
    serviceId true
    [passwordServiceImport (modulePathOf SRC_DIRECTORY entityName)]
    passwordFields.

Definition serviceBaseOutcome (entityName : string) (mapping : Mapping)
    (passwordFields : list EntityField) (serviceBaseId : Node)
  : (Error + Module_) * State :=
  outcome print (moduleBasePathOf SRC_DIRECTORY entityName)
    (serviceBasePrepared mapping)
    (serviceBasePrefix mapping)
    serviceBaseId false
    [ passwordServiceImport (moduleBasePathOf SRC_DIRECTORY entityName);
      prismaUtilImport (moduleBasePathOf SRC_DIRECTORY entityName) ]
    passwordFields.

End Outcomes.

(** ** Notions the properties are stated with *)

(** [await this.passwordService.hash(args.data.<field>)] *)
Definition hashedValue (field : string) : Node :=
  AwaitExpression
    (CallExpression
       (MemberExpression
          (MemberExpression ThisExpression (Identifier "passwordService"))
          (Identifier "hash"))
       [MemberExpression (MemberExpression (Identifier "args") (Identifier "data"))
          (Identifier field)]).

(** [args.data.<field> && await transformStringFieldUpdateInput(
      args.data.<field>, (password) => this.passwordService.hash(password))] *)
Definition transformedValue (field : string) : Node :=
  LogicalExpression "&&"
    (MemberExpression (MemberExpression (Identifier "args") (Identifier "data"))
       (Identifier field))
    (AwaitExpression
       (CallExpression (Identifier "transformStringFieldUpdateInput")
          [ MemberExpression (MemberExpression (Identifier "args") (Identifier "data"))
              (Identifier field);
            ArrowFunctionExpression [Identifier "password"]
              (CallExpression
                 (MemberExpression
                    (MemberExpression ThisExpression (Identifier "passwordService"))
                    (Identifier "hash"))
                 [Identifier "password"]) ])).

(** An override whose value is determined by the field's name. *)
Definition overrideWith (value : string -> Node) (field : EntityField) : Node :=
  ObjectProperty (Identifier (name field)) (value (name field)).




(** A stripper that removes no class, no method and no expression
    statement. *)
Definition keepsCode (p : Node -> bool) : Prop :=
  (forall d i sup body, p (ClassDeclaration d i sup body) = false)
  /\ (forall kind key async ps body, p (ClassMethod kind key async ps body) = false)
  /\ (forall e, p (ExpressionStatement e) = false).

(** The key and the flag of a member that is a method. *)
Definition flagOf (member : Node) : list (Node * bool) :=
  match member with
  | ClassMethod _ key async _ _ => [(key, async)]
  | _ => []
  end.

(** The class as the four closing strippers leave it. *)
Definition strippedClass (class : Node) : Node :=
  removeNodes isTSInterfaceDeclare
    (removeNodes isTSVariableDeclare
       (removeNodes isESLintComment (removeNodes isTSIgnoreComment class))).

(** What the loop leaves of a method's flag. *)
Definition markFlag (flag : Node * bool) : Node * bool :=
  (fst flag, snd flag || isPasswordAsyncKey (fst flag)).

(** A text read backwards. *)
Fixpoint reversed (s : string) : string :=
  match s with
  | EmptyString => EmptyString
  | String c s' => (reversed s' ++ String c EmptyString)%string
  end.


(** The member both functions inject. *)
Definition injectPasswordService (class : Node) : option Node :=
  addInjectableDependency class "passwordService" PASSWORD_SERVICE_ID "protected".

Section OutcomeCases.

Variable print : File -> string.
Variable destination : string.
Variable prepared : File.
Variable prefix : list Op.
Variable id : Node.
Variable splice : bool.
Variable imports : list (list Node).

(** The four ways either function can end. *)
Inductive OutcomeCase (passwordFields : list EntityField)
  : (Error + Module_) * State -> Prop :=
  | Untouched :
      passwordFields = [] ->
      OutcomeCase passwordFields (finished print destination prepared prefix)
  | NotFound :
      passwordFields <> [] ->
      findClass prepared id = None ->
      OutcomeCase passwordFields
        (failed prepared (TargetNotFound id) (prefix ++ [OpGetClassDeclarationById id]))
  | NoConstructor (class : Node) :
      passwordFields <> [] ->
      findClass prepared id = Some class ->
      injectPasswordService class = None ->
      OutcomeCase passwordFields
        (failed prepared TemplateMalformed
           (prefix ++ [OpGetClassDeclarationById id; injectionOp]))
  | Mutated (class : Node) (i : nat) (injected : Node) :
      passwordFields <> [] ->
      findClass prepared id = Some class ->
      getClassDeclarationById prepared id = Some i ->
      nth_error prepared i = Some class ->
      isClassNamed id class = true ->
      injectPasswordService class = Some injected ->
      OutcomeCase passwordFields
        (finished print destination (mutatedFile prepared splice imports i injected)
           (prefix ++ mutationOps id splice imports injected)).

End OutcomeCases.

(** ** Further notions *)

(** The properties of the object an arguments mapping gives [data]; none
    when the mapping is the bare identifier. *)
Definition dataProperties (argsMapping : Node) : list Node :=
  match argsMapping with
  | ObjectExpression [SpreadProperty _; ObjectProperty _ (ObjectExpression ps)] => ps
  | _ => []
  end.

(** The keys a property list names, in order; a spread names none. *)
Definition propertyKeys (properties : list Node) : list string :=
  flat_map (fun p => match p with
                     | ObjectProperty (Identifier k) _ => [k]
                     | _ => []
                     end) properties.

(** A member with its [async] flag put aside. *)
Definition withoutAsync (member : Node) : Node :=
  match member with
  | ClassMethod kind key _ ps body => ClassMethod kind key false ps body
  | _ => member
  end.

(** Building objects, and evaluating a property list given how
    expressions evaluate. *)
Module JsObject.

Import Js.

(** What a spread copies into an object under construction. *)
Definition spreadInto (acc entries : Env) : Env :=
  fold_left (fun o kv => set o (fst kv) (snd kv)) entries acc.

Section Properties.

Variable evalNode : Node -> Calls -> Result * Calls.

Fixpoint evalProperties (ps : list Node) (acc : Env) (calls : Calls) : Result * Calls :=
  match ps with
  | [] => (Returned (VObject acc), calls)
  | SpreadProperty a :: rest =>
      match evalNode a calls with
      | (Returned (VObject entries), calls') =>
          evalProperties rest (spreadInto acc entries) calls'
      | (Returned (VString s), calls') =>
          if String.eqb s EmptyString then evalProperties rest acc calls'
          else (Unsupported, calls')
      | (Returned _, calls') => evalProperties rest acc calls'
      | failed => failed
      end
  | ObjectProperty (Identifier k) v :: rest =>
      if String.eqb k "__proto__" then (Unsupported, calls)
      else
        match evalNode v calls with
        | (Returned w, calls') => evalProperties rest (set acc k w) calls'
        | failed => failed
        end
  | _ => (Unsupported, calls)
  end.

End Properties.

(** The overrides, set one after the other. *)
Definition overridden (h : string -> Value) (fs : list EntityField) (acc : Env)
  : Env :=
  fold_left (fun o f => set o (name f) (h (name f))) fs acc.

(** The callback the update mapping hands to the transform helper:
    [(password) => this.passwordService.hash(password)], closed over the
    environment and the [this] of the method. *)
Definition hashCallback (env : Env) (this : Value) : Value :=
  VClosure env this [Identifier "password"]
    (CallExpression HASH_MEMBER_EXPRESSION [Identifier "password"]).

(** The call to the transform helper for what [args.data.<field>] reads,
    made when that value is truthy. *)
Definition transformCalls (env : Env) (this : Value) (data : Env) (field : string)
  : Calls :=
  if truthy (read data field)
  then [("transformStringFieldUpdateInput",
         [read data field; hashCallback env this])]
  else [].

(** The hashing collaborator is reachable as [this.passwordService.hash]. *)
Definition hasPasswordService (this : Value) : Prop :=
  exists service,
    getMember this "passwordService" = Returned service
    /\ getMember service "hash" = Returned (VHost "hash").

(** [args] is an object whose [data] is an object; no key is listed
    twice in either. *)
Definition bindsArgs (env : Env) (args data : Env) : Prop :=
  get env "args" = Some (VObject args)
  /\ get args "data" = Some (VObject data)
  /\ NoDup (map fst args) /\ NoDup (map fst data).

(** The call to the hashing collaborator that hashes what
    [args.data.<field>] reads. *)
Definition hashCall (data : Env) (field : string) : string * list Value :=
  ("hash", [read data field]).

(** No password field of the entity is named [__proto__], the key with
    which an object literal sets its prototype instead of a property. *)
Definition definesProperties (entity : Entity) : Prop :=
  forall field,
    In field (fields entity) -> isPasswordField field = true ->
    name field <> "__proto__".

End JsObject.

(** An update and a creation that supply the password. *)
Module Scenario.

Definition data : Js.Env :=
  [("name", Js.VString "Ann"); ("password", Js.VString "secret")].

Definition args : Js.Env :=
  [("where", Js.VObject [("id", Js.VNumber 7)]); ("data", Js.VObject data)].

Definition env : Js.Env :=
  [ ("args", Js.VObject args);
    ("transformStringFieldUpdateInput", Js.VHost "transformStringFieldUpdateInput") ].

(** An entity whose password field bears the name of a member every
    object inherits; the data above leaves that field out. *)
Definition account : Entity :=
  {| fields := [ {| name := "constructor"; dataType := Password |} ] |}.

(** A host that tags what it is given with the function's name. *)
Definition host (name : string) (arguments : list Js.Value) : Js.Value :=
  Js.VObject (("by", Js.VString name)
              :: match arguments with
                 | v :: _ => [("of", v)]
                 | [] => []
                 end).

End Scenario.

(** * Properties *)

(** ** Lists, lookups and references *)

Lemma findIndex_find {A : Type} (p : A -> bool) (l : list A) :
  match findIndex p l with
  | Some i => exists x, find p l = Some x /\ nth_error l i = Some x /\ p x = true
  | None => find p l = None
  end.
Proof.
  induction l as [|a l IH]; simpl; [reflexivity|].
  destruct (p a) eqn:Hp.
  - exists a. auto.
  - destruct (findIndex p l) as [i|]; simpl; [|exact IH].
    destruct IH as (x & Hf & Hn & Hx). exists x. auto.
Qed.

Lemma nth_error_setAt {A : Type} (l : list A) (i : nat) (x y : A) :
  nth_error l i = Some y -> nth_error (setAt l i x) i = Some x.
Proof.
  revert i. induction l as [|a l IH]; intros [|i]; simpl; try discriminate; auto.
Qed.

(** ** The loop over the class members *)

Lemma loopBody_markAsync (m : Node) (s : State) :
  (if ClassMethod_check m && Identifier_check (keyOf m)
      && has PASSWORD_FIELD_ASYNC_METHODS (nameOf (keyOf m))
   then setAsync m else ret m) s
  = (inr (markAsync m), {| file := file s; trace := trace s ++ asyncOps [m] |}).
Proof.
  destruct s as [f t].
  assert (Hret : forall n : Node,
             ret n {| file := f; trace := t |}
             = (inr n, {| file := f; trace := t ++ [] |})).
  { intros n. unfold ret. now rewrite app_nil_r. }
  unfold asyncOps. destruct m; simpl; try apply Hret.
  destruct m; simpl; try apply Hret.
  match goal with |- context [if ?b then _ else _] => destruct b end; simpl.
  - reflexivity.
  - apply Hret.
Qed.

Lemma forEach_markAsync (members : list Node) (s : State) :
  forEach members (fun member =>
      if ClassMethod_check member
         && Identifier_check (keyOf member)
         && has PASSWORD_FIELD_ASYNC_METHODS (nameOf (keyOf member))
      then setAsync member
      else ret member) s
  = (inr (map markAsync members),
     {| file := file s; trace := trace s ++ asyncOps members |}).
Proof.
  revert s. induction members as [|m members IH]; intros s.
  - destruct s as [f t]. simpl. unfold ret. now rewrite app_nil_r.
  - cbn [forEach]. unfold bind at 1. rewrite loopBody_markAsync.
    unfold bind at 1. rewrite IH. cbn [file trace map].
    unfold ret. f_equal. f_equal.
    rewrite <- app_assoc. f_equal. unfold asyncOps. simpl.
    now rewrite app_nil_r.
Qed.

(** ** The two functions, step by step *)

Lemma apply_run (op : Op) (f : File -> File) (s : State) :
  apply op f s = (inr tt, {| file := f (file s); trace := trace s ++ [op] |}).
Proof. reflexivity. Qed.

Lemma log_run (op : Op) (s : State) :
  log op s = (inr tt, {| file := file s; trace := trace s ++ [op] |}).
Proof. reflexivity. Qed.

Lemma getFile_run (s : State) : getFile s = (inr (file s), s).
Proof. reflexivity. Qed.

Lemma readClass_run (i : nat) (s : State) (class : Node) :
  nth_error (file s) i = Some class -> readClass i s = (inr class, s).
Proof.
  intros H. unfold readClass, bind. rewrite getFile_run, H. reflexivity.
Qed.

Lemma writeClass_run (i : nat) (class : Node) (s : State) :
  writeClass i class s
  = (inr tt, {| file := setAt (file s) i class; trace := trace s |}).
Proof. reflexivity. Qed.

Ltac step :=
  unfold bind at 1; cbv beta;
  first [ rewrite apply_run | rewrite log_run | rewrite getFile_run
        | rewrite writeClass_run | rewrite forEach_markAsync ];
  cbn [file trace app].

Lemma createServiceModule_outcome SRC_DIRECTORY readFile print entityName mapping
    passwordFields serviceId serviceBaseId :
  run (createServiceModule SRC_DIRECTORY readFile print entityName mapping
         passwordFields serviceId serviceBaseId)
  = serviceOutcome SRC_DIRECTORY readFile print entityName mapping
      passwordFields serviceId serviceBaseId.
Proof.
  unfold serviceOutcome, outcome, finished, failed, createServiceModule, run,
    initial, findClass, getClassDeclarationById.
  destruct passwordFields as [|pf pfs].
  - reflexivity.
  - cbn [List.length Nat.eqb negb].
    do 4 step.
    unfold servicePrepared, interpolated, baseClassImport.
    set (prepared := addImports (removeTSClassDeclares _) _).
    unfold bind at 1. step. step.
    pose proof (findIndex_find (isClassNamed serviceId) prepared) as Hfind.
    destruct (findIndex (isClassNamed serviceId) prepared) as [i|].
    + destruct Hfind as (class & Hclass & Hnth & Hnamed). rewrite Hclass.
      step. unfold bind at 1.
      erewrite readClass_run by (cbn [file]; exact Hnth).
      destruct (addInjectableDependency class (nameOf PASSWORD_SERVICE_MEMBER_ID)
                  PASSWORD_SERVICE_ID "protected") as [injected|] eqn:Hinj;
        cbn [nameOf PASSWORD_SERVICE_MEMBER_ID] in Hinj; rewrite Hinj.
      * step. step. unfold bind at 1.
        erewrite readClass_run
          by (cbn [file]; unfold addIdentifierToConstructorSuperCall;
              rewrite nth_error_map; erewrite nth_error_setAt by exact Hnth;
              reflexivity).
        repeat step. rewrite ?getFile_run. unfold ret.
        cbn [file trace].
        unfold stripScaffold, servicePrefix, stripOps, injectionOp, spliceOp,
          mutatedFile, mutationOps, markedOf, targetOf, passwordServiceImport,
          baseClassImport.
        cbn [fold_left map]. repeat rewrite <- app_assoc. cbn [app]. reflexivity.
      * unfold throw, servicePrefix, injectionOp. reflexivity.
    + rewrite Hfind. unfold throw, servicePrefix. reflexivity.
Qed.

Lemma createServiceBaseModule_outcome SRC_DIRECTORY readFile print entityName mapping
    passwordFields serviceId serviceBaseId :
  run (createServiceBaseModule SRC_DIRECTORY readFile print entityName mapping
         passwordFields serviceId serviceBaseId)
  = serviceBaseOutcome SRC_DIRECTORY readFile print entityName mapping
      passwordFields serviceBaseId.
Proof.
  unfold serviceBaseOutcome, outcome, finished, failed, createServiceBaseModule, run,
    initial, findClass, getClassDeclarationById.
  destruct passwordFields as [|pf pfs].
  - reflexivity.
  - cbn [List.length Nat.eqb negb].
    do 3 step.
    unfold serviceBasePrepared, interpolated.
    set (prepared := removeTSClassDeclares _).
    unfold bind at 1. step. step.
    pose proof (findIndex_find (isClassNamed serviceBaseId) prepared) as Hfind.
    destruct (findIndex (isClassNamed serviceBaseId) prepared) as [i|].
    + destruct Hfind as (class & Hclass & Hnth & Hnamed). rewrite Hclass.
      step. unfold bind at 1.
      erewrite readClass_run by (cbn [file]; exact Hnth).
      destruct (addInjectableDependency class (nameOf PASSWORD_SERVICE_MEMBER_ID)
                  PASSWORD_SERVICE_ID "protected") as [injected|] eqn:Hinj;
        cbn [nameOf PASSWORD_SERVICE_MEMBER_ID] in Hinj; rewrite Hinj.
      * step. unfold bind at 1.
        erewrite readClass_run
          by (cbn [file]; erewrite nth_error_setAt by exact Hnth; reflexivity).
        repeat step. rewrite ?getFile_run. unfold ret.
        cbn [file trace].
        unfold stripScaffold, serviceBasePrefix, stripOps, injectionOp,
          mutatedFile, mutationOps, markedOf, targetOf, passwordServiceImport,
          prismaUtilImport.
        cbn [fold_left map]. repeat rewrite <- app_assoc. cbn [app]. reflexivity.
      * unfold throw, serviceBasePrefix, injectionOp. reflexivity.
    + rewrite Hfind. unfold throw, serviceBasePrefix. reflexivity.
Qed.

(** ** The mutation data mappings *)


Section Overrides.

Variable value : string -> Node.


Lemma lastValueOf_override_value (key : string) (fs : list EntityField) (v : Node) :
  lastValueOf key (map (overrideWith value) fs) = Some v -> v = value key.
Proof.
  induction fs as [|f fs IH]; simpl; [discriminate|].
  destruct (lastValueOf key (map (overrideWith value) fs)) as [w|].
  - intros H. apply IH. exact H.
  - destruct (String.eqb_spec (name f) key) as [<-|]; [|discriminate].
    intros H. now inversion H.
Qed.

Lemma lastValueOf_override (field : EntityField) (fs : list EntityField) :
  In field fs -> lastValueOf (name field) (map (overrideWith value) fs) = Some (value (name field)).
Proof.
  induction fs as [|f fs IH]; simpl; [contradiction|].
  intros Hin.
  destruct (lastValueOf (name field) (map (overrideWith value) fs)) as [w|] eqn:Hrest.
  - f_equal. now apply (lastValueOf_override_value _ fs).
  - destruct Hin as [->|Hin].
    + now rewrite String.eqb_refl.
    + specialize (IH Hin). discriminate.
Qed.

Lemma lastValueOf_after_spread (field : EntityField) (fs : list EntityField)
    (spread : Node) :
  In field fs ->
  lastValueOf (name field) (SpreadProperty spread :: map (overrideWith value) fs)
  = Some (value (name field)).
Proof.
  intros Hin. simpl. now rewrite (lastValueOf_override _ _ Hin).
Qed.

End Overrides.

(** C1.  For an entity with at least one password field, the create-args
    mapping is the object expression that spreads [args] and then gives
    [data] as an object that first spreads [args.data] and then lists one
    property per password field, of value
    [await this.passwordService.hash(args.data.<field>)]; and for every
    password field of the entity, wherever it stands among the fields, the
    last property of the data object keyed by the field's name is that
    hashed override. *)
Theorem create_mapping_override_wins (entityName entityType : string) (entity : Entity) :
  passwordFieldsOf entity <> [] ->
  let overrides :=
    map (fun field => ObjectProperty (Identifier (name field)) (hashedValue (name field)))
        (passwordFieldsOf entity) in
  let data :=
    SpreadProperty (MemberExpression (Identifier "args") (Identifier "data"))
    :: overrides in
  lookup (createMapping entityName entityType entity) "CREATE_ARGS_MAPPING"
  = Some (ObjectExpression
            [ SpreadProperty (Identifier "args");
              ObjectProperty (Identifier "data") (ObjectExpression data) ])
  /\ (forall field,
        In field (fields entity) -> isPasswordField field = true ->
        lastValueOf (name field) data = Some (hashedValue (name field))).
Proof.
  intros Hsome overrides data. split.
  - cbn [createMapping lookup String.eqb Ascii.eqb Bool.eqb].
    unfold createMutationDataMapping.
    destruct (passwordFieldsOf entity) as [|f fs] eqn:Hfs; [contradiction|].
    reflexivity.
  - intros field Hin Hpassword.
    apply (lastValueOf_after_spread hashedValue).
    unfold passwordFieldsOf. apply filter_In. now split.
Qed.

(** C1, on the spec's scenario: the [Customer] entity. *)
Lemma create_mapping_override_wins_witness :
  passwordFieldsOf Example.customer <> []
  /\ lookup (createMapping "customer" "Customer" Example.customer) "CREATE_ARGS_MAPPING"
     = Some (ObjectExpression
               [ SpreadProperty (Identifier "args");
                 ObjectProperty (Identifier "data")
                   (ObjectExpression
                      [ SpreadProperty
                          (MemberExpression (Identifier "args") (Identifier "data"));
                        ObjectProperty (Identifier "password")
                          (hashedValue "password") ]) ]).
Proof.
  assert (H : passwordFieldsOf Example.customer <> []) by (vm_compute; discriminate).
  split; [exact H|].
  exact (proj1 (create_mapping_override_wins "customer" "Customer" Example.customer H)).
Defined.





(** ** What the helpers keep *)


Lemma keepsCode_isTSIgnoreComment : keepsCode isTSIgnoreComment.
Proof. repeat split. Qed.

Lemma keepsCode_isESLintComment : keepsCode isESLintComment.
Proof. repeat split. Qed.

Lemma keepsCode_isTSVariableDeclare : keepsCode isTSVariableDeclare.
Proof. repeat split. Qed.

Lemma keepsCode_isTSInterfaceDeclare : keepsCode isTSInterfaceDeclare.
Proof. repeat split. Qed.

Section Find.

Variable A : Type.
Variable p : A -> bool.

Lemma findIndex_setAt (l : list A) (i : nat) (x : A) :
  findIndex p l = Some i -> p x = true -> findIndex p (setAt l i x) = Some i.
Proof.
  revert i. induction l as [|a l IH]; simpl; [discriminate|].
  intros i. destruct (p a) eqn:Ha.
  - intros [= <-] Hx. simpl. now rewrite Hx.
  - destruct (findIndex p l) as [j|] eqn:Hj; [|discriminate].
    intros [= <-] Hx. simpl. rewrite Ha. now rewrite (IH j eq_refl Hx).
Qed.

Lemma find_setAt (l : list A) (i : nat) (x : A) :
  findIndex p l = Some i -> p x = true -> find p (setAt l i x) = Some x.
Proof.
  revert i. induction l as [|a l IH]; simpl; [discriminate|].
  intros i. destruct (p a) eqn:Ha.
  - intros [= <-] Hx. simpl. now rewrite Hx.
  - destruct (findIndex p l) as [j|] eqn:Hj; [|discriminate].
    intros [= <-] Hx. simpl. rewrite Ha. now apply IH.
Qed.

Lemma findIndex_map (g : A -> A) (l : list A) :
  (forall x, p (g x) = p x) -> findIndex p (map g l) = findIndex p l.
Proof.
  intros Hg. induction l as [|a l IH]; simpl; [reflexivity|].
  rewrite Hg, IH. reflexivity.
Qed.

Lemma find_app_miss (l : list A) (x : A) :
  p x = false -> find p (l ++ [x]) = find p l.
Proof.
  intros Hx. induction l as [|a l IH]; simpl.
  - now rewrite Hx.
  - now rewrite IH.
Qed.

End Find.


(** *** Imports *)

Lemma addImport_cases (file : File) (declaration : Node) :
  addImport file declaration = file
  \/ exists specs source,
       addImport file declaration = file ++ [ImportDeclaration specs source].
Proof.
  destruct declaration; simpl; auto.
  destruct (filter _ specifiers); [auto|]. right. eauto.
Qed.

Lemma findClass_addImports (file : File) (imports : list Node) (id : Node) :
  findClass (addImports file imports) id = findClass file id.
Proof.
  unfold addImports, findClass. revert file.
  induction imports as [|d imports IH]; intros file; simpl; [reflexivity|].
  rewrite IH.
  destruct (addImport_cases file d) as [->|(specs & source & ->)]; [reflexivity|].
  apply find_app_miss. reflexivity.
Qed.


(** *** Scaffold stripping *)

Lemma isClassNamed_removeNodes (p : Node -> bool) (id n : Node) :
  isClassNamed id (removeNodes p n) = isClassNamed id n.
Proof. destruct n; reflexivity. Qed.

Lemma findClass_removeFrom (p : Node -> bool) (file : File) (id : Node) :
  keepsCode p ->
  findClass (removeFrom p file) id = option_map (removeNodes p) (findClass file id).
Proof.
  intros (Hclass & _ & _). unfold findClass, removeFrom.
  induction file as [|a file IH]; simpl; [reflexivity|].
  destruct (isClassNamed id a) eqn:Ha.
  - assert (Hkeep : p (removeNodes p a) = false).
    { destruct a; try discriminate. simpl. apply Hclass. }
    rewrite Hkeep. simpl. now rewrite isClassNamed_removeNodes, Ha.
  - destruct (p (removeNodes p a)); simpl; [exact IH|].
    now rewrite isClassNamed_removeNodes, Ha.
Qed.


Lemma methodFlags_flagOf (class : Node) :
  methodFlags class = flat_map flagOf (classBody class).
Proof. reflexivity. Qed.

Lemma methodFlags_removeNodes (p : Node -> bool) (class : Node) :
  keepsCode p -> methodFlags (removeNodes p class) = methodFlags class.
Proof.
  intros (_ & Hmethod & _). rewrite !methodFlags_flagOf.
  destruct class; try reflexivity. simpl.
  induction body as [|m body IH]; simpl; [reflexivity|].
  destruct m; simpl;
    try (match goal with |- context [if ?b then _ else _] => destruct b end;
         simpl; exact IH).
  rewrite Hmethod. simpl. now rewrite IH.
Qed.





Lemma findClass_stripScaffold (file : File) (id : Node) :
  findClass (stripScaffold file) id = option_map strippedClass (findClass file id).
Proof.
  unfold stripScaffold, removeTSInterfaceDeclares, removeTSVariableDeclares,
    removeESLintComments, removeTSIgnoreComments.
  rewrite (findClass_removeFrom _ _ _ keepsCode_isTSInterfaceDeclare).
  rewrite (findClass_removeFrom _ _ _ keepsCode_isTSVariableDeclare).
  rewrite (findClass_removeFrom _ _ _ keepsCode_isESLintComment).
  rewrite (findClass_removeFrom _ _ _ keepsCode_isTSIgnoreComment).
  now destruct (findClass file id).
Qed.

Lemma methodFlags_strippedClass (class : Node) :
  methodFlags (strippedClass class) = methodFlags class.
Proof.
  unfold strippedClass.
  rewrite (methodFlags_removeNodes _ _ keepsCode_isTSInterfaceDeclare).
  rewrite (methodFlags_removeNodes _ _ keepsCode_isTSVariableDeclare).
  rewrite (methodFlags_removeNodes _ _ keepsCode_isESLintComment).
  now rewrite (methodFlags_removeNodes _ _ keepsCode_isTSIgnoreComment).
Qed.


(** *** Injection, super-call splice and async marking *)

Lemma addParameter_keeps (members members' : list Node) (param : Node) (x : string) :
  addParameter members param x = Some members' ->
  flat_map flagOf members' = flat_map flagOf members
  /\ flat_map superCallsOfMember members' = flat_map superCallsOfMember members.
Proof.
  revert members'. induction members as [|m members IH]; simpl; [discriminate|].
  intros members'.
  assert (Hrest : option_map (cons m) (addParameter members param x) = Some members' ->
                  flat_map flagOf members' = flagOf m ++ flat_map flagOf members
                  /\ flat_map superCallsOfMember members'
                     = superCallsOfMember m ++ flat_map superCallsOfMember members).
  { destruct (addParameter members param x) as [rest|]; [|discriminate].
    intros [= <-]. destruct (IH rest eq_refl) as [H1 H2]. simpl.
    now rewrite H1, H2. }
  destruct m; try exact Hrest.
  destruct (String.eqb kind "constructor") eqn:Hkind; [|exact Hrest].
  destruct (existsb (declaresParameter x) params); intros [= <-]; simpl;
    rewrite Hkind; auto.
Qed.

Lemma addInjectableDependency_keeps (class injected : Node) (x : string)
    (typeId : Node) (accessibility : string) (id : Node) :
  addInjectableDependency class x typeId accessibility = Some injected ->
  isClassNamed id injected = isClassNamed id class
  /\ methodFlags injected = methodFlags class
  /\ superCallsOfClass injected = superCallsOfClass class.
Proof.
  destruct class; try discriminate. simpl.
  destruct (addParameter body _ x) as [body'|] eqn:Hbody; [|discriminate].
  intros [= <-].
  destruct (addParameter_keeps _ _ _ _ Hbody) as [H1 H2].
  rewrite !methodFlags_flagOf. simpl. auto.
Qed.

Lemma addToClass_keeps (identifier class id : Node) :
  isClassNamed id (addToClass identifier class) = isClassNamed id class
  /\ methodFlags (addToClass identifier class) = methodFlags class.
Proof.
  split; [now destruct class|].
  rewrite !methodFlags_flagOf. destruct class; try reflexivity. simpl.
  induction body as [|m body IH]; simpl; [reflexivity|].
  rewrite IH. f_equal. destruct m; try reflexivity. simpl.
  now destruct (String.eqb kind "constructor").
Qed.




Lemma markAsync_keeps (class id : Node) :
  let marked := withClassBody class (map markAsync (classBody class)) in
  isClassNamed id marked = isClassNamed id class
  /\ methodFlags marked = map markFlag (methodFlags class)
  /\ superCallsOfClass marked = superCallsOfClass class.
Proof.
  destruct class; try (repeat split; reflexivity).
  cbn zeta. rewrite !methodFlags_flagOf. cbn [withClassBody classBody superCallsOfClass].
  split; [reflexivity|]. split.
  - induction body as [|m body IH]; simpl; [reflexivity|].
    rewrite IH, map_app. f_equal.
    destruct m; try reflexivity.
    destruct m; try (unfold markFlag; simpl; now rewrite orb_false_r).
    unfold markAsync, markFlag. cbn [map flagOf fst snd isPasswordAsyncKey].
    destruct (has PASSWORD_FIELD_ASYNC_METHODS name0); cbn [flagOf].
    + now rewrite orb_true_r.
    + now rewrite orb_false_r.
  - induction body as [|m body IH]; simpl; [reflexivity|].
    rewrite IH. f_equal.
    destruct m; try reflexivity. destruct m; try reflexivity.
    unfold markAsync.
    now destruct (has PASSWORD_FIELD_ASYNC_METHODS name0).
Qed.

(** The steps of the loop are assignments to [async], made only to
    methods the set names. *)
Lemma asyncOps_only (members : list Node) (op : Op) :
  In op (asyncOps members) ->
  exists x, op = OpSetAsync (Identifier x)
            /\ has PASSWORD_FIELD_ASYNC_METHODS x = true
            /\ exists kind async ps body,
                 In (ClassMethod kind (Identifier x) async ps body) members.
Proof.
  unfold asyncOps. rewrite in_flat_map. intros (m & Hm & Hop).
  destruct m; try contradiction. destruct m; try contradiction.
  unfold asyncOp in Hop.
  destruct (has PASSWORD_FIELD_ASYNC_METHODS name0) eqn:Hset; [|contradiction].
  destruct Hop as [<-|[]]. exists name0. repeat split; eauto.
Qed.



(** ** The outcome, case by case *)

Section OutcomeFacts.

Variable print : File -> string.
Variable destination : string.
Variable prepared : File.
Variable prefix : list Op.
Variable id : Node.
Variable splice : bool.
Variable imports : list (list Node).


Lemma outcome_case (passwordFields : list EntityField) :
  OutcomeCase print destination prepared prefix id splice imports passwordFields
    (outcome print destination prepared prefix id splice imports passwordFields).
Proof.
  unfold outcome. destruct passwordFields as [|pf pfs]; [now constructor|].
  assert (Hsome : pf :: pfs <> []) by discriminate.
  pose proof (findIndex_find (isClassNamed id) prepared) as Hfind.
  unfold findClass, getClassDeclarationById in *.
  destruct (findIndex (isClassNamed id) prepared) as [i|] eqn:Hi.
  - destruct Hfind as (class & Hclass & Hnth & Hnamed). rewrite Hclass.
    destruct (addInjectableDependency class "passwordService" PASSWORD_SERVICE_ID
                "protected") as [injected|] eqn:Hinj.
    + now apply Mutated with (class := class).
    + now apply NoConstructor with (class := class).
  - rewrite Hfind. now apply NotFound.
Qed.

Lemma findClass_fold_addImports (file : File) :
  findClass (fold_left addImports imports file) id = findClass file id.
Proof.
  revert file. induction imports as [|d ds IH]; intros file; simpl; [reflexivity|].
  now rewrite IH, findClass_addImports.
Qed.


(** The target class of the finished tree, and its methods' flags. *)
Lemma mutated_findClass (class : Node) (i : nat) (injected : Node) :
  getClassDeclarationById prepared id = Some i ->
  isClassNamed id class = true ->
  injectPasswordService class = Some injected ->
  findClass (stripScaffold (mutatedFile prepared splice imports i injected)) id
  = Some (strippedClass (markedOf splice injected))
  /\ methodFlags (strippedClass (markedOf splice injected))
     = map markFlag (methodFlags class).
Proof.
  intros Hi Hnamed Hinj.
  destruct (addInjectableDependency_keeps _ _ _ _ _ id Hinj) as (Hn & Hflags & _).
  assert (Htarget : isClassNamed id (targetOf splice injected) = true
                    /\ methodFlags (targetOf splice injected) = methodFlags class).
  { unfold targetOf. destruct splice.
    - destruct (addToClass_keeps PASSWORD_SERVICE_MEMBER_ID injected id) as [-> ->].
      now rewrite Hn, Hflags.
    - now rewrite Hn, Hflags. }
  destruct Htarget as [Htn Htf].
  destruct (markAsync_keeps (targetOf splice injected) id) as (Hmn & Hmf & _).
  split.
  - rewrite findClass_stripScaffold. unfold mutatedFile.
    rewrite findClass_fold_addImports. unfold findClass.
    erewrite find_setAt; [reflexivity| |].
    + unfold getClassDeclarationById in Hi. destruct splice.
      * unfold addIdentifierToConstructorSuperCall.
        rewrite findIndex_map by (intros x; apply addToClass_keeps).
        apply findIndex_setAt; [exact Hi|]. now rewrite Hn.
      * apply findIndex_setAt; [exact Hi|]. now rewrite Hn.
    + unfold markedOf. now rewrite Hmn.
  - rewrite methodFlags_strippedClass. unfold markedOf. now rewrite Hmf, Htf.
Qed.


End OutcomeFacts.

(** ** Paths *)

Local Open Scope string_scope.












Local Open Scope list_scope.

(** ** The two runs of one call *)

Section Runs.

Variable SRC_DIRECTORY : string.
Variable readFile : string -> File.
Variable print : File -> string.
Variables entityName entityType : string.
Variable entity : Entity.

Lemma serviceRun_outcome :
  serviceRun SRC_DIRECTORY readFile print entityName entityType entity
  = outcome print (modulePathOf SRC_DIRECTORY entityName)
      (servicePrepared SRC_DIRECTORY readFile entityName
         (createMapping entityName entityType entity) (createServiceBaseId entityType))
      (servicePrefix SRC_DIRECTORY entityName
         (createMapping entityName entityType entity) (createServiceBaseId entityType))
      (createServiceId entityType) true
      [passwordServiceImport SRC_DIRECTORY (modulePathOf SRC_DIRECTORY entityName)]
      (passwordFieldsOf entity).
Proof. unfold serviceRun. now rewrite createServiceModule_outcome. Qed.

Lemma serviceBaseRun_outcome :
  serviceBaseRun SRC_DIRECTORY readFile print entityName entityType entity
  = outcome print (moduleBasePathOf SRC_DIRECTORY entityName)
      (serviceBasePrepared readFile (createMapping entityName entityType entity))
      (serviceBasePrefix (createMapping entityName entityType entity))
      (createServiceBaseId entityType) false
      [ passwordServiceImport SRC_DIRECTORY (moduleBasePathOf SRC_DIRECTORY entityName);
        prismaUtilImport SRC_DIRECTORY (moduleBasePathOf SRC_DIRECTORY entityName) ]
      (passwordFieldsOf entity).
Proof. unfold serviceBaseRun. now rewrite createServiceBaseModule_outcome. Qed.

Lemma createServiceModules_runs :
  createServiceModules SRC_DIRECTORY readFile print entityName entityType entity
  = match fst (serviceRun SRC_DIRECTORY readFile print entityName entityType entity) with
    | inl e => inl e
    | inr service =>
        match fst (serviceBaseRun SRC_DIRECTORY readFile print entityName entityType
                     entity) with
        | inl e => inl e
        | inr serviceBase => inr [service; serviceBase]
        end
    end.
Proof. reflexivity. Qed.

End Runs.

Lemma isPasswordAsyncKey_spec (key : Node) :
  isPasswordAsyncKey key = true <-> key = Identifier "create" \/ key = Identifier "update".
Proof.
  destruct key; simpl; try (split; [discriminate|intros [H|H]; discriminate]).
  rewrite !orb_true_iff, !String.eqb_eq. split.
  - intros [->|[->|H]]; [auto|auto|discriminate].
  - intros [[= ->]|[= ->]]; auto.
Qed.

(** Case analysis on the outcome the goal speaks of. *)
Ltac outcome_cases :=
  match goal with
  | |- context [outcome ?pr ?de ?fi ?pre ?ident ?sp ?im ?pf] =>
      destruct (outcome_case pr de fi pre ident sp im pf)
        as [Hnone
           |Hfields Hmissing
           |class Hfields Hclass Hinj
           |class i injected Hfields Hclass Hi Hnth Hnamed Hinj];
      unfold injectPasswordService in *
  end.

(** C4.  For an entity with at least one password field, in the target
    class of each module produced, a method is [async] exactly when it was
    so in the interpolated template or its key is the identifier [create]
    or [update]: the methods of those two names are made [async], and the
    flag of every other method is as the template has it. *)
Theorem async_marks_exactly_create_and_update
    (SRC_DIRECTORY : string) (readFile : string -> File) (print : File -> string)
    (entityName entityType : string) (entity : Entity) :
  passwordFieldsOf entity <> [] ->
  let mapping := createMapping entityName entityType entity in
  let serviceId := createServiceId entityType in
  let serviceBaseId := createServiceBaseId entityType in
  let service := serviceRun SRC_DIRECTORY readFile print entityName entityType entity in
  let serviceBase :=
    serviceBaseRun SRC_DIRECTORY readFile print entityName entityType entity in
  (forall m, fst service = inr m ->
     exists before after,
       findClass (servicePrepared SRC_DIRECTORY readFile entityName mapping serviceBaseId)
         serviceId = Some before
       /\ findClass (file (snd service)) serviceId = Some after
       /\ methodFlags after
          = map (fun flag => (fst flag, snd flag || isPasswordAsyncKey (fst flag)))
                (methodFlags before))
  /\ (forall m, fst serviceBase = inr m ->
        exists before after,
          findClass (serviceBasePrepared readFile mapping) serviceBaseId = Some before
          /\ findClass (file (snd serviceBase)) serviceBaseId = Some after
          /\ methodFlags after
             = map (fun flag => (fst flag, snd flag || isPasswordAsyncKey (fst flag)))
                   (methodFlags before))
  /\ (forall key,
        isPasswordAsyncKey key = true
        <-> key = Identifier "create" \/ key = Identifier "update").
Proof.
  intros Hsome mapping serviceId serviceBaseId service serviceBase.
  split; [|split; [|exact isPasswordAsyncKey_spec]].
  - subst service mapping serviceId serviceBaseId. rewrite serviceRun_outcome.
    outcome_cases; intros m Hm;
      try (cbv [failed fst] in Hm; discriminate); [contradiction|].
    exists class, (strippedClass (markedOf true injected)).
    split; [exact Hclass|]. cbv [finished snd file].
    eapply mutated_findClass; eassumption.
  - subst serviceBase mapping serviceId serviceBaseId. rewrite serviceBaseRun_outcome.
    outcome_cases; intros m Hm;
      try (cbv [failed fst] in Hm; discriminate); [contradiction|].
    exists class, (strippedClass (markedOf false injected)).
    split; [exact Hclass|]. cbv [finished snd file].
    eapply mutated_findClass; eassumption.
Qed.

(** C4, on the [Customer] entity and the example templates: the base
    module is produced, and the flags of its class are those of the
    template with [create] and [update] made [async]. *)
Lemma async_marks_exactly_create_and_update_witness :
  passwordFieldsOf Example.customer <> []
  /\ exists before after,
       findClass
         (serviceBasePrepared Example.readFile
            (createMapping "customer" "Customer" Example.customer))
         (createServiceBaseId "Customer") = Some before
       /\ findClass
            (file (snd (serviceBaseRun "src" Example.readFile Example.print
                          "customer" "Customer" Example.customer)))
            (createServiceBaseId "Customer") = Some after
       /\ methodFlags after
          = map (fun flag => (fst flag, snd flag || isPasswordAsyncKey (fst flag)))
                (methodFlags before).
Proof.
  assert (H : passwordFieldsOf Example.customer <> []) by (vm_compute; discriminate).
  split; [exact H|].
  destruct (async_marks_exactly_create_and_update "src" Example.readFile Example.print
              "customer" "Customer" Example.customer H) as (_ & Hbase & _).
  eapply Hbase. vm_compute. reflexivity.
Defined.






(** ** Failure to find the target class *)

(** C9, as stated, fails: for an entity without password fields the class
    is never looked up, and a template without the class yields a module
    all the same. *)
Lemma class_lookup_is_skipped_without_password_fields :
  findClass (Example.readMalformed serviceTemplatePath) (createServiceId "Tag") = None
  /\ findClass
       (interpolated Example.readMalformed serviceTemplatePath
          (createMapping "tag" "Tag" Example.tag))
       (createServiceId "Tag") = None
  /\ fst (serviceRun "src" Example.readMalformed Example.print "tag" "Tag" Example.tag)
     = inr {| path := "src/tag/tag.service.ts";
              code := "import { TagServiceBase } from './base/tag.service.base'; " |}
  /\ exists modules,
       createServiceModules "src" Example.readMalformed Example.print "tag" "Tag"
         Example.tag = inr modules.
Proof.
  repeat split; try (vm_compute; reflexivity).
  eexists. vm_compute. reflexivity.
Qed.

(** C9, amended.  For an entity with at least one password field, when the
    template, once interpolated and rid of its declared classes, holds no
    class declaration of the service's identifier (the base service's
    identifier for the base template), the function fails with
    [TargetNotFound] and the call produces no module. *)
Theorem missing_class_fails_with_password_fields
    (SRC_DIRECTORY : string) (readFile : string -> File) (print : File -> string)
    (entityName entityType : string) (entity : Entity) :
  passwordFieldsOf entity <> [] ->
  let mapping := createMapping entityName entityType entity in
  let serviceId := createServiceId entityType in
  let serviceBaseId := createServiceBaseId entityType in
  (findClass (interpolated readFile serviceTemplatePath mapping) serviceId = None ->
   fst (serviceRun SRC_DIRECTORY readFile print entityName entityType entity)
   = inl (TargetNotFound serviceId)
   /\ createServiceModules SRC_DIRECTORY readFile print entityName entityType entity
      = inl (TargetNotFound serviceId))
  /\ (findClass (interpolated readFile serviceBaseTemplatePath mapping) serviceBaseId
      = None ->
      fst (serviceBaseRun SRC_DIRECTORY readFile print entityName entityType entity)
      = inl (TargetNotFound serviceBaseId)
      /\ exists e,
           createServiceModules SRC_DIRECTORY readFile print entityName entityType entity
           = inl e).
Proof.
  intros Hsome mapping serviceId serviceBaseId.
  subst mapping serviceId serviceBaseId. split.
  - intros Hmissing0.
    assert (Hrun : fst (serviceRun SRC_DIRECTORY readFile print entityName entityType
                          entity) = inl (TargetNotFound (createServiceId entityType))).
    { rewrite serviceRun_outcome.
      outcome_cases; try contradiction; try reflexivity;
        unfold servicePrepared in Hclass; rewrite findClass_addImports in Hclass;
        congruence. }
    split; [exact Hrun|]. rewrite createServiceModules_runs, Hrun. reflexivity.
  - intros Hmissing0.
    assert (Hrun : fst (serviceBaseRun SRC_DIRECTORY readFile print entityName entityType
                          entity)
                   = inl (TargetNotFound (createServiceBaseId entityType))).
    { rewrite serviceBaseRun_outcome.
      outcome_cases; try contradiction; try reflexivity;
        unfold serviceBasePrepared in Hclass; congruence. }
    split; [exact Hrun|]. rewrite createServiceModules_runs, Hrun.
    destruct (fst (serviceRun SRC_DIRECTORY readFile print entityName entityType entity));
      eauto.
Qed.

(** C9 amended, on the [Customer] entity and a service template without
    its class. *)
Lemma missing_class_fails_with_password_fields_witness :
  passwordFieldsOf Example.customer <> []
  /\ createServiceModules "src" Example.readMalformed Example.print "customer" "Customer"
       Example.customer
     = inl (TargetNotFound (Identifier "CustomerService")).
Proof.
  assert (H : passwordFieldsOf Example.customer <> []) by (vm_compute; discriminate).
  split; [exact H|].
  apply (proj1 (missing_class_fails_with_password_fields "src" Example.readMalformed
                  Example.print "customer" "Customer" Example.customer H)).
  vm_compute. reflexivity.
Defined.

(** ** Names of imported symbols *)

Local Open Scope string_scope.


Lemma append_empty (s : string) : s ++ "" = s.
Proof. induction s as [|c s IH]; simpl; [reflexivity|now rewrite IH]. Qed.

Lemma append_associative (a b c : string) : (a ++ b) ++ c = a ++ b ++ c.
Proof. induction a as [|x a IH]; simpl; [reflexivity|now rewrite IH]. Qed.

Lemma reversed_app (a b : string) : reversed (a ++ b) = reversed b ++ reversed a.
Proof.
  induction a as [|c a IH]; simpl.
  - now rewrite append_empty.
  - now rewrite IH, append_associative.
Qed.

(** The base service's identifier is neither the collaborator's name nor
    the transform helper's. *)
Lemma serviceBase_is_not_PasswordService (entityType : string) :
  String.eqb "PasswordService" (entityType ++ "ServiceBase") = false.
Proof.
  apply String.eqb_neq. intros H. apply (f_equal reversed) in H.
  rewrite reversed_app in H. discriminate H.
Qed.


Local Open Scope list_scope.

(** ** Entities without password fields *)

(** C6.  For an entity without password fields, each function returns the
    interpolated template rid of its scaffold (with the import of the base
    class, for the service): no class is looked up, no member injected, no
    super call spliced, no method made [async] and no [PasswordService]
    import added; and both mapping slots are the identifier [args]. *)
Theorem no_password_fields_no_mutation
    (SRC_DIRECTORY : string) (readFile : string -> File) (print : File -> string)
    (entityName entityType : string) (entity : Entity) :
  passwordFieldsOf entity = [] ->
  let mapping := createMapping entityName entityType entity in
  let serviceBaseId := createServiceBaseId entityType in
  let baseImport :=
    [importNames [serviceBaseId]
       (relativeImportPath (modulePathOf SRC_DIRECTORY entityName)
          (moduleBasePathOf SRC_DIRECTORY entityName))] in
  let serviceFile :=
    stripScaffold
      (addImports
         (removeTSClassDeclares (interpolate (readFile serviceTemplatePath) mapping))
         baseImport) in
  let serviceBaseFile :=
    stripScaffold
      (removeTSClassDeclares (interpolate (readFile serviceBaseTemplatePath) mapping)) in
  let service := serviceRun SRC_DIRECTORY readFile print entityName entityType entity in
  let serviceBase :=
    serviceBaseRun SRC_DIRECTORY readFile print entityName entityType entity in
  service
  = (inr {| path := modulePathOf SRC_DIRECTORY entityName; code := print serviceFile |},
     {| file := serviceFile;
        trace := [ OpReadFile serviceTemplatePath; OpInterpolate mapping;
                   OpRemoveTSClassDeclares; OpAddImports baseImport;
                   OpRemoveTSIgnoreComments; OpRemoveESLintComments;
                   OpRemoveTSVariableDeclares; OpRemoveTSInterfaceDeclares ] |})
  /\ serviceBase
     = (inr {| path := moduleBasePathOf SRC_DIRECTORY entityName;
               code := print serviceBaseFile |},
        {| file := serviceBaseFile;
           trace := [ OpReadFile serviceBaseTemplatePath; OpInterpolate mapping;
                      OpRemoveTSClassDeclares;
                      OpRemoveTSIgnoreComments; OpRemoveESLintComments;
                      OpRemoveTSVariableDeclares; OpRemoveTSInterfaceDeclares ] |})
  /\ createServiceModules SRC_DIRECTORY readFile print entityName entityType entity
     = inr [ {| path := modulePathOf SRC_DIRECTORY entityName;
                code := print serviceFile |};
             {| path := moduleBasePathOf SRC_DIRECTORY entityName;
                code := print serviceBaseFile |} ]
  /\ (forall op,
        In op (trace (snd service)) \/ In op (trace (snd serviceBase)) ->
        isLookupOp op = false /\ isInjectionOp op = false /\ isSpliceOp op = false
        /\ isSetAsyncOp op = false /\ importsSymbol "PasswordService" op = false)
  /\ lookup mapping "CREATE_ARGS_MAPPING" = Some (Identifier "args")
  /\ lookup mapping "UPDATE_ARGS_MAPPING" = Some (Identifier "args").
Proof.
  intros Hnone mapping serviceBaseId baseImport serviceFile serviceBaseFile
    service serviceBase.
  assert (Hservice : service
    = (inr {| path := modulePathOf SRC_DIRECTORY entityName; code := print serviceFile |},
       {| file := serviceFile;
          trace := [ OpReadFile serviceTemplatePath; OpInterpolate mapping;
                     OpRemoveTSClassDeclares; OpAddImports baseImport;
                     OpRemoveTSIgnoreComments; OpRemoveESLintComments;
                     OpRemoveTSVariableDeclares; OpRemoveTSInterfaceDeclares ] |})).
  { subst service. rewrite serviceRun_outcome. unfold outcome. rewrite Hnone.
    reflexivity. }
  assert (HserviceBase : serviceBase
    = (inr {| path := moduleBasePathOf SRC_DIRECTORY entityName;
              code := print serviceBaseFile |},
       {| file := serviceBaseFile;
          trace := [ OpReadFile serviceBaseTemplatePath; OpInterpolate mapping;
                     OpRemoveTSClassDeclares;
                     OpRemoveTSIgnoreComments; OpRemoveESLintComments;
                     OpRemoveTSVariableDeclares; OpRemoveTSInterfaceDeclares ] |})).
  { subst serviceBase. rewrite serviceBaseRun_outcome. unfold outcome. rewrite Hnone.
    reflexivity. }
  split; [exact Hservice|]. split; [exact HserviceBase|]. split; [|split; [|split]].
  - rewrite createServiceModules_runs. fold service serviceBase.
    now rewrite Hservice, HserviceBase.
  - intros op. rewrite Hservice, HserviceBase. cbn [snd trace In].
    assert (Himport : importsSymbol "PasswordService" (OpAddImports baseImport) = false).
    { subst baseImport serviceBaseId. unfold createServiceBaseId.
      cbn [importsSymbol importNames map flat_map importedNames app has existsb].
      now rewrite serviceBase_is_not_PasswordService. }
    intros [H|H];
      repeat (destruct H as [<-|H]; [repeat split; try reflexivity; exact Himport|]);
      contradiction.
  - subst mapping. cbn [createMapping lookup String.eqb Ascii.eqb Bool.eqb].
    now rewrite Hnone.
  - subst mapping. cbn [createMapping lookup String.eqb Ascii.eqb Bool.eqb].
    now rewrite Hnone.
Qed.

(** C6, on the [Tag] entity of the spec's scenario. *)
Lemma no_password_fields_no_mutation_witness :
  passwordFieldsOf Example.tag = []
  /\ lookup (createMapping "tag" "Tag" Example.tag) "CREATE_ARGS_MAPPING"
     = Some (Identifier "args")
  /\ lookup (createMapping "tag" "Tag" Example.tag) "UPDATE_ARGS_MAPPING"
     = Some (Identifier "args").
Proof.
  assert (H : passwordFieldsOf Example.tag = []) by reflexivity.
  split; [exact H|].
  exact (proj2 (proj2 (proj2 (proj2 (no_password_fields_no_mutation "src"
                                       Example.readFile Example.print "tag" "Tag"
                                       Example.tag H))))).
Defined.

(** ** The order of the steps *)

Lemma allBefore_nil_later (earlier later : Op -> bool) (steps : list Op) :
  forallb (fun o => negb (earlier o)) steps = true ->
  allBefore earlier later steps = true.
Proof.
  induction steps as [|op steps IH]; simpl; [reflexivity|].
  intros H. apply andb_prop in H as [_ H]. rewrite H, orb_true_r. now apply IH.
Qed.

Lemma allBefore_app (earlier later : Op -> bool) (first second : list Op) :
  forallb (fun o => negb (later o)) first = true ->
  forallb (fun o => negb (earlier o)) second = true ->
  allBefore earlier later (first ++ second) = true.
Proof.
  intros Hfirst Hsecond. induction first as [|op first IH]; simpl.
  - now apply allBefore_nil_later.
  - simpl in Hfirst. apply andb_prop in Hfirst as [Hop Hfirst].
    rewrite Hop. simpl. now apply IH.
Qed.

Lemma forallb_asyncOps (p : Op -> bool) (members : list Node) :
  (forall key, p (OpSetAsync key) = true) -> forallb p (asyncOps members) = true.
Proof.
  intros Hp. apply forallb_forall. intros op Hin.
  apply asyncOps_only in Hin as (x & -> & _). apply Hp.
Qed.

Lemma forallb_addImports (p : Op -> bool) (imports : list (list Node)) :
  (forall i, p (OpAddImports i) = true) -> forallb p (map OpAddImports imports) = true.
Proof.
  intros Hp. apply forallb_forall. intros op Hin.
  apply in_map_iff in Hin as (i & <- & _). apply Hp.
Qed.

(** No late stripper among the steps of a mutation. *)
Lemma mutationOps_no_late_stripper (id : Node) (splice : bool)
    (imports : list (list Node)) (injected : Node) :
  forallb (fun o => negb (isLateStripper o)) (mutationOps id splice imports injected)
  = true.
Proof.
  unfold mutationOps. rewrite !forallb_app.
  rewrite forallb_asyncOps by reflexivity.
  rewrite forallb_addImports by reflexivity.
  now destruct splice.
Qed.

(** The late strippers of either function come after all its mutators. *)
Lemma outcome_order (print : File -> string) (destination : string) (prepared : File)
    (prefix : list Op) (id : Node) (splice : bool) (imports : list (list Node))
    (passwordFields : list EntityField) :
  forallb (fun o => negb (isLateStripper o)) prefix = true ->
  allBefore isMutator isLateStripper
    (trace (snd (outcome print destination prepared prefix id splice imports
                   passwordFields))) = true.
Proof.
  intros Hprefix. outcome_cases; cbv [finished failed snd trace].
  - now apply allBefore_app.
  - rewrite <- (app_nil_r (prefix ++ _)). apply allBefore_app; [|reflexivity].
    now rewrite forallb_app, Hprefix.
  - rewrite <- (app_nil_r (prefix ++ _)). apply allBefore_app; [|reflexivity].
    now rewrite forallb_app, Hprefix.
  - apply allBefore_app; [|reflexivity].
    now rewrite forallb_app, Hprefix, mutationOps_no_late_stripper.
Qed.

(** C8, as stated, fails: the declared classes are removed before the
    first mutator, the import of the base class, runs. *)
Lemma class_declares_are_removed_before_the_mutators :
  trace (snd (serviceRun "src" Example.readFile Example.print "tag" "Tag" Example.tag))
  = [ OpReadFile "./service.template.ts";
      OpInterpolate (createMapping "tag" "Tag" Example.tag);
      OpRemoveTSClassDeclares;
      OpAddImports
        [ImportDeclaration [ImportSpecifier (Identifier "TagServiceBase")]
           "./base/tag.service.base"];
      OpRemoveTSIgnoreComments; OpRemoveESLintComments;
      OpRemoveTSVariableDeclares; OpRemoveTSInterfaceDeclares ]
  /\ allBefore isMutator isStripper
       (trace (snd (serviceRun "src" Example.readFile Example.print "tag" "Tag"
                      Example.tag))) = false.
Proof. split; vm_compute; reflexivity. Qed.

(** C8, amended.  In each function the removal of the TS-ignore comments,
    of the ESLint comments, of the declared variables and of the declared
    interfaces runs after every structural mutator (injection, super-call
    splice, async marking, added imports); the removal of the declared
    classes comes first, right after the interpolation. *)
Theorem late_strippers_run_after_mutators
    (SRC_DIRECTORY : string) (readFile : string -> File) (print : File -> string)
    (entityName entityType : string) (entity : Entity) :
  let mapping := createMapping entityName entityType entity in
  let service :=
    trace (snd (serviceRun SRC_DIRECTORY readFile print entityName entityType entity)) in
  let serviceBase :=
    trace (snd (serviceBaseRun SRC_DIRECTORY readFile print entityName entityType
                  entity)) in
  allBefore isMutator isLateStripper service = true
  /\ allBefore isMutator isLateStripper serviceBase = true
  /\ (exists rest,
        service
        = OpReadFile serviceTemplatePath :: OpInterpolate mapping
          :: OpRemoveTSClassDeclares :: rest)
  /\ (exists rest,
        serviceBase
        = OpReadFile serviceBaseTemplatePath :: OpInterpolate mapping
          :: OpRemoveTSClassDeclares :: rest).
Proof.
  intros mapping service serviceBase. subst mapping service serviceBase.
  rewrite serviceRun_outcome, serviceBaseRun_outcome.
  split; [now apply outcome_order|]. split; [now apply outcome_order|]. split.
  - outcome_cases; cbv [finished failed snd trace servicePrefix]; cbn [app];
      eexists; reflexivity.
  - outcome_cases; cbv [finished failed snd trace serviceBasePrefix]; cbn [app];
      eexists; reflexivity.
Qed.

(** ** Import statements *)














Section ImportFacts.

Variable prepared : File.
Variable id : Node.
Variable splice : bool.
Variable imports : list (list Node).


End ImportFacts.

(** The import statements of the two modules. *)
Section RunImports.

Variable SRC_DIRECTORY : string.
Variable readFile : string -> File.
Variable print : File -> string.
Variables entityName entityType : string.
Variable entity : Entity.



End RunImports.



(** ** Which function does what *)





(** ** Symmetry of the two modules *)









(** ** Destination paths *)

Lemma outcome_path (print : File -> string) (destination : string) (prepared : File)
    (prefix : list Op) (id : Node) (splice : bool) (imports : list (list Node))
    (passwordFields : list EntityField) (m : Module_) :
  fst (outcome print destination prepared prefix id splice imports passwordFields)
  = inr m ->
  path m = destination.
Proof.
  outcome_cases; intros Hm; try (cbv [failed fst] in Hm; discriminate);
    cbv [finished fst] in Hm; injection Hm as <-; reflexivity.
Qed.




(** * Further properties *)

(** ** Texts *)

Local Open Scope string_scope.

Lemma reversed_involutive (s : string) : reversed (reversed s) = s.
Proof.
  induction s as [|c s IH]; simpl; [reflexivity|].
  rewrite reversed_app, IH. reflexivity.
Qed.

Lemma append_cancel_left (p a b : string) : p ++ a = p ++ b -> a = b.
Proof.
  induction p as [|c p IH]; simpl; [auto|]. intros [= H]. auto.
Qed.

Lemma append_cancel_right (s a b : string) : a ++ s = b ++ s -> a = b.
Proof.
  intros H. apply (f_equal reversed) in H. rewrite !reversed_app in H.
  apply append_cancel_left in H. apply (f_equal reversed) in H.
  now rewrite !reversed_involutive in H.
Qed.

Lemma length_app (a b : string) :
  String.length (a ++ b) = String.length a + String.length b.
Proof. induction a as [|c a IH]; simpl; [reflexivity|now rewrite IH]. Qed.

Lemma append_same_length (a b x y : string) :
  String.length a = String.length b -> a ++ x = b ++ y -> a = b /\ x = y.
Proof.
  revert b. induction a as [|c a IH]; intros [|d b]; simpl; try discriminate.
  - auto.
  - intros [= Hlen] [= -> H]. destruct (IH b Hlen H) as [-> ->]. auto.
Qed.

(** Two texts built from pieces are told apart by their lengths, by their
    ends or by their beginnings. *)
Ltac texts_differ H :=
  first
    [ discriminate H
    | exfalso; apply (f_equal String.length) in H;
      repeat (rewrite ?length_app in H; simpl in H); lia
    | exfalso; apply (f_equal reversed) in H;
      repeat (rewrite ?reversed_app in H; simpl in H); discriminate H ].

(** ** Names *)

(** X1.  Different entity types get different service identifiers and
    different base-service identifiers, and no service identifier is the
    base-service identifier of any entity type. *)
Theorem service_identifiers_never_collide (a b : string) :
  (a <> b -> createServiceId a <> createServiceId b)
  /\ (a <> b -> createServiceBaseId a <> createServiceBaseId b)
  /\ createServiceId a <> createServiceBaseId b.
Proof.
  unfold createServiceId, createServiceBaseId. split; [|split].
  - intros Hab [= H]. apply Hab. now apply append_cancel_right in H.
  - intros Hab [= H]. apply Hab. now apply append_cancel_right in H.
  - intros [= H]. texts_differ H.
Qed.

Lemma service_identifiers_never_collide_witness :
  "User" <> "Order"
  /\ createServiceId "User" <> createServiceId "Order"
  /\ createServiceBaseId "User" <> createServiceBaseId "Order".
Proof.
  assert (H : "User" <> "Order") by discriminate.
  split; [exact H|]. split.
  - exact (proj1 (service_identifiers_never_collide "User" "Order") H).
  - exact (proj1 (proj2 (service_identifiers_never_collide "User" "Order")) H).
Defined.

Local Open Scope list_scope.

(** X2.  The eight identifiers the mapping derives from one entity type
    (the service, the base service, the entity and the five argument
    types) are pairwise distinct, whatever the entity type. *)
Theorem derived_identifiers_are_distinct (entityName entityType : string)
    (entity : Entity) :
  NoDup (map snd (firstn 8 (createMapping entityName entityType entity))).
Proof.
  cbn [createMapping firstn map snd]. unfold createServiceId, createServiceBaseId.
  repeat (apply NoDup_cons;
          [cbn [In];
           repeat (let H := fresh "H" in
                   intros [H|H]; [injection H as H; texts_differ H|revert H]);
           intros []|]).
  apply NoDup_nil.
Qed.

(** ** Which fields are overridden *)

Lemma lastValueOf_keys (key : string) (properties : list Node) :
  lastValueOf key properties <> None <-> In key (propertyKeys properties).
Proof.
  unfold propertyKeys. induction properties as [|p ps IH]; simpl.
  - split; [intros H; now contradiction H|contradiction].
  - rewrite in_app_iff, <- IH.
    destruct (lastValueOf key ps) as [v|].
    + split; [right|]; discriminate.
    + destruct p; try (split; [intros H; now contradiction H|intros [[]|H]; exact H]).
      destruct p1;
        try (split; [intros H; now contradiction H|intros [[]|H]; exact H]).
      destruct (String.eqb_spec name0 key) as [->|Hk].
      * split; [left; now left|discriminate].
      * split; [intros H; now contradiction H|].
        intros [[H|[]]|H]; [contradiction|exact H].
Qed.

Lemma propertyKeys_overrides (value : string -> Node) (fs : list EntityField) :
  propertyKeys (map (overrideWith value) fs) = map name fs.
Proof.
  unfold propertyKeys. induction fs as [|f fs IH]; simpl; [reflexivity|].
  now rewrite IH.
Qed.

(** X4.  In both mappings the keys the data object overrides are, in
    order, the names of the entity's password fields in the order the
    entity lists them; a key that is no password field's name has no
    override, so that what the caller supplied for it is what the spread
    copies. *)
Theorem only_password_fields_are_overridden (entityName entityType : string)
    (entity : Entity) (slot : string) (argsMapping : Node) :
  slot = "CREATE_ARGS_MAPPING" \/ slot = "UPDATE_ARGS_MAPPING" ->
  lookup (createMapping entityName entityType entity) slot = Some argsMapping ->
  propertyKeys (dataProperties argsMapping)
  = map name (filter isPasswordField (fields entity))
  /\ (forall key,
        (forall field, In field (fields entity) -> isPasswordField field = true ->
                       name field <> key) ->
        lastValueOf key (dataProperties argsMapping) = None).
Proof.
  intros Hslot Hlookup.
  assert (Hkeys : propertyKeys (dataProperties argsMapping)
                  = map name (filter isPasswordField (fields entity))).
  { fold (passwordFieldsOf entity).
    destruct Hslot as [-> | ->];
      cbn [createMapping lookup String.eqb Ascii.eqb Bool.eqb] in Hlookup;
      injection Hlookup as <-; unfold createMutationDataMapping.
    - destruct (passwordFieldsOf entity) as [|f fs]; [reflexivity|].
      cbn [dataProperties map].
      change (propertyKeys (SpreadProperty ARGS_DATA :: ?l)) with (propertyKeys l).
      apply (propertyKeys_overrides hashedValue (f :: fs)).
    - destruct (passwordFieldsOf entity) as [|f fs]; [reflexivity|].
      cbn [dataProperties map].
      change (propertyKeys (SpreadProperty ARGS_DATA :: ?l)) with (propertyKeys l).
      apply (propertyKeys_overrides transformedValue (f :: fs)). }
  split; [exact Hkeys|].
  intros key Hkey.
  destruct (lastValueOf key (dataProperties argsMapping)) as [v|] eqn:Hv;
    [|reflexivity].
  exfalso.
  assert (Hin : In key (propertyKeys (dataProperties argsMapping)))
    by (apply lastValueOf_keys; rewrite Hv; discriminate).
  rewrite Hkeys in Hin. apply in_map_iff in Hin as (field & Hname & Hfield).
  apply filter_In in Hfield as [Hfield Hpassword].
  exact (Hkey field Hfield Hpassword Hname).
Qed.

Lemma only_password_fields_are_overridden_witness :
  propertyKeys
    (dataProperties
       (createMutationDataMapping
          (map updateArgsProperty (passwordFieldsOf Example.customer))))
  = ["password"].
Proof.
  refine (proj1 (only_password_fields_are_overridden "customer" "Customer"
                   Example.customer "UPDATE_ARGS_MAPPING" _ (or_intror eq_refl) _)).
  reflexivity.
Defined.

(** ** Destinations *)

Local Open Scope string_scope.

Lemma service_path_is_no_base_path (root root' a b : string) :
  modulePathOf root a <> moduleBasePathOf root' b.
Proof.
  unfold modulePathOf, moduleBasePathOf.
  intros H. apply (f_equal reversed) in H.
  repeat (rewrite ?reversed_app in H; simpl in H).
  rewrite !append_associative in H. simpl in H. discriminate H.
Qed.

(** X5.  Under one root, different entity names get different service
    paths and different base-service paths; and no service path is a
    base-service path, whatever the roots and the entity names: no
    generated module overwrites another. *)
Theorem destinations_never_collide (root root' a b : string) :
  (a <> b -> modulePathOf root a <> modulePathOf root b)
  /\ (a <> b -> moduleBasePathOf root a <> moduleBasePathOf root b)
  /\ modulePathOf root a <> moduleBasePathOf root' b.
Proof.
  unfold modulePathOf, moduleBasePathOf. split; [|split].
  - intros Hab H. apply Hab.
    apply append_cancel_left in H. injection H as H.
    assert (Hlen : String.length a = String.length b).
    { apply (f_equal String.length) in H.
      repeat (rewrite ?length_app in H; simpl in H). lia. }
    now apply (append_same_length _ _ _ _ Hlen H).
  - intros Hab H. apply Hab.
    apply append_cancel_left in H. injection H as H.
    assert (Hlen : String.length a = String.length b).
    { apply (f_equal String.length) in H.
      repeat (rewrite ?length_app in H; simpl in H). lia. }
    now apply (append_same_length _ _ _ _ Hlen H).
  - apply service_path_is_no_base_path.
Qed.

Lemma destinations_never_collide_witness :
  "customer" <> "order"
  /\ modulePathOf "src" "customer" <> modulePathOf "src" "order"
  /\ moduleBasePathOf "src" "customer" <> moduleBasePathOf "src" "order".
Proof.
  assert (H : "customer" <> "order") by discriminate.
  split; [exact H|]. split.
  - exact (proj1 (destinations_never_collide "src" "src" "customer" "order") H).
  - exact (proj1 (proj2 (destinations_never_collide "src" "src" "customer" "order")) H).
Defined.

Local Open Scope list_scope.

(** ** One call, two modules *)

Lemma outcome_finished (print : File -> string) (destination : string) (prepared : File)
    (prefix : list Op) (id : Node) (splice : bool) (imports : list (list Node))
    (passwordFields : list EntityField) (m : Module_) :
  forallb (fun o => negb (isLateStripper o)) prefix = true ->
  fst (outcome print destination prepared prefix id splice imports passwordFields)
  = inr m ->
  code m
  = print (file (snd (outcome print destination prepared prefix id splice imports
                        passwordFields)))
  /\ exists steps,
       trace (snd (outcome print destination prepared prefix id splice imports
                     passwordFields))
       = steps ++ stripOps
       /\ forallb (fun o => negb (isLateStripper o)) steps = true.
Proof.
  intros Hprefix. outcome_cases; intros Hm;
    try (cbv [failed fst] in Hm; discriminate);
    cbv [finished fst] in Hm; injection Hm as <-;
    cbv [finished snd file trace code]; (split; [reflexivity|]).
  - exists prefix. auto.
  - exists (prefix ++ mutationOps id splice imports injected).
    split; [reflexivity|].
    now rewrite forallb_app, Hprefix, mutationOps_no_late_stripper.
Qed.

(** X6.  When a call produces modules, it produces exactly two, the
    service first and the base service second, at different paths; the
    code of each is the print of the tree its function ends with, and the
    last four steps of each function are the removal of the TS-ignore
    comments, of the ESLint comments, of the declared variables and of the
    declared interfaces, in this order and run once each. *)
Theorem call_produces_service_then_base
    (SRC_DIRECTORY : string) (readFile : string -> File) (print : File -> string)
    (entityName entityType : string) (entity : Entity) (modules : list Module_) :
  createServiceModules SRC_DIRECTORY readFile print entityName entityType entity
  = inr modules ->
  let service := serviceRun SRC_DIRECTORY readFile print entityName entityType entity in
  let serviceBase :=
    serviceBaseRun SRC_DIRECTORY readFile print entityName entityType entity in
  let closing :=
    [ OpRemoveTSIgnoreComments; OpRemoveESLintComments;
      OpRemoveTSVariableDeclares; OpRemoveTSInterfaceDeclares ] in
  exists m1 m2,
    modules = [m1; m2]
    /\ fst service = inr m1 /\ fst serviceBase = inr m2
    /\ path m1 <> path m2
    /\ code m1 = print (file (snd service))
    /\ code m2 = print (file (snd serviceBase))
    /\ (exists steps, trace (snd service) = steps ++ closing
                      /\ forallb (fun o => negb (isLateStripper o)) steps = true)
    /\ (exists steps, trace (snd serviceBase) = steps ++ closing
                      /\ forallb (fun o => negb (isLateStripper o)) steps = true).
Proof.
  intros Hmodules service serviceBase closing.
  rewrite createServiceModules_runs in Hmodules. fold service serviceBase in Hmodules.
  destruct (fst service) as [e|m1] eqn:H1; [discriminate|].
  destruct (fst serviceBase) as [e|m2] eqn:H2; [discriminate|].
  injection Hmodules as <-. exists m1, m2.
  subst service serviceBase.
  rewrite serviceRun_outcome in *. rewrite serviceBaseRun_outcome in *.
  pose proof (outcome_path _ _ _ _ _ _ _ _ _ H1) as Hp1.
  pose proof (outcome_path _ _ _ _ _ _ _ _ _ H2) as Hp2.
  pose proof H1 as F1. apply outcome_finished in F1; [|reflexivity].
  pose proof H2 as F2. apply outcome_finished in F2; [|reflexivity].
  destruct F1 as [Hc1 Ht1]. destruct F2 as [Hc2 Ht2].
  repeat split; try assumption; try reflexivity.
  rewrite Hp1, Hp2.
  apply service_path_is_no_base_path.
Qed.

Lemma call_produces_service_then_base_witness :
  exists m1 m2,
    createServiceModules "src" Example.readFile Example.print "customer" "Customer"
      Example.customer = inr [m1; m2]
    /\ path m1 <> path m2.
Proof.
  destruct (call_produces_service_then_base "src" Example.readFile Example.print
              "customer" "Customer" Example.customer
              (match createServiceModules "src" Example.readFile Example.print
                       "customer" "Customer" Example.customer with
               | inr modules => modules
               | inl _ => []
               end))
    as (m1 & m2 & Hmodules & _ & _ & Hpaths & _).
  - vm_compute. reflexivity.
  - exists m1, m2. split; [|exact Hpaths].
    rewrite <- Hmodules. vm_compute. reflexivity.
Defined.

(** ** The loop over the members *)

Lemma markAsync_withoutAsync (member : Node) :
  withoutAsync (markAsync member) = withoutAsync member.
Proof.
  destruct member; try reflexivity. destruct member; try reflexivity.
  unfold markAsync. now destruct (has PASSWORD_FIELD_ASYNC_METHODS name0).
Qed.

Lemma markAsync_idempotent (member : Node) :
  markAsync (markAsync member) = markAsync member.
Proof.
  destruct member; try reflexivity. destruct member; try reflexivity.
  unfold markAsync.
  destruct (has PASSWORD_FIELD_ASYNC_METHODS name0) eqn:H; [|now rewrite H].
  now rewrite H.
Qed.

Lemma markAsync_cases (member : Node) :
  markAsync member = member
  \/ exists kind x async ps body,
       member = ClassMethod kind (Identifier x) async ps body
       /\ (x = "create" \/ x = "update")
       /\ markAsync member = ClassMethod kind (Identifier x) true ps body.
Proof.
  destruct member; auto. destruct member; auto.
  unfold markAsync.
  destruct (has PASSWORD_FIELD_ASYNC_METHODS name0) eqn:H; auto.
  right. exists kind, name0, async, params, body. split; [reflexivity|].
  split; [|reflexivity].
  assert (Hkey : isPasswordAsyncKey (Identifier name0) = true) by exact H.
  apply isPasswordAsyncKey_spec in Hkey as [[= ->]|[= ->]]; auto.
Qed.

(** X7.  The loop over the class members never fails and leaves the tree
    as it is until the class is written back; it keeps the members in
    their number and order and changes nothing of a member but the [async]
    flag; a member it changes is a method whose key is the identifier
    [create] or [update], left with [async] set; and run again on what it
    leaves, it leaves the same members. *)
Theorem async_loop_changes_only_flags (members : list Node) (s : State) :
  let body := fun member =>
    if ClassMethod_check member
       && Identifier_check (keyOf member)
       && has PASSWORD_FIELD_ASYNC_METHODS (nameOf (keyOf member))
    then setAsync member
    else ret member in
  exists members' s',
    forEach members body s = (inr members', s')
    /\ file s' = file s
    /\ map withoutAsync members' = map withoutAsync members
    /\ (forall i m m',
          nth_error members i = Some m -> nth_error members' i = Some m' ->
          m' = m
          \/ exists kind x async ps stmts,
               m = ClassMethod kind (Identifier x) async ps stmts
               /\ (x = "create" \/ x = "update")
               /\ m' = ClassMethod kind (Identifier x) true ps stmts)
    /\ fst (forEach members' body s') = inr members'.
Proof.
  intros body. subst body.
  exists (map markAsync members),
         {| file := file s; trace := trace s ++ asyncOps members |}.
  split; [apply forEach_markAsync|]. split; [reflexivity|]. split; [|split].
  - rewrite map_map. apply map_ext. apply markAsync_withoutAsync.
  - intros i m m' Hm Hm'. rewrite nth_error_map, Hm in Hm'.
    injection Hm' as <-.
    destruct (markAsync_cases m) as [->|(kind & x & async & ps & stmts & -> & Hx & ->)];
      [now left|].
    right. exists kind, x, async, ps, stmts. auto.
  - rewrite forEach_markAsync. cbn [fst]. rewrite map_map.
    apply f_equal. apply map_ext. apply markAsync_idempotent.
Qed.

Lemma async_loop_changes_only_flags_witness :
  exists members' s',
    forEach [Example.method "create" ARGS_ID; Example.method "delete" ARGS_ID]
      (fun member =>
         if ClassMethod_check member
            && Identifier_check (keyOf member)
            && has PASSWORD_FIELD_ASYNC_METHODS (nameOf (keyOf member))
         then setAsync member
         else ret member) initial
    = (inr members', s')
    /\ map withoutAsync members'
       = map withoutAsync
           [Example.method "create" ARGS_ID; Example.method "delete" ARGS_ID].
Proof.
  destruct (async_loop_changes_only_flags
              [Example.method "create" ARGS_ID; Example.method "delete" ARGS_ID] initial)
    as (members' & s' & Hrun & _ & Hsame & _).
  exists members', s'. split; [exact Hrun|exact Hsame].
Defined.

(** ** What the mappings evaluate to *)

Import JsObject.

Lemma get_set_same (entries : Js.Env) (key : string) (v : Js.Value) :
  Js.get (Js.set entries key v) key = Some v.
Proof.
  induction entries as [|[k w] entries IH]; simpl.
  - now rewrite String.eqb_refl.
  - destruct (String.eqb_spec k key) as [->|Hk]; simpl.
    + now rewrite String.eqb_refl.
    + destruct (String.eqb_spec k key); [contradiction|exact IH].
Qed.

Lemma get_set_other (entries : Js.Env) (key other : string) (v : Js.Value) :
  other <> key -> Js.get (Js.set entries key v) other = Js.get entries other.
Proof.
  intros Hother. induction entries as [|[k w] entries IH]; simpl.
  - destruct (String.eqb_spec key other); [now subst|reflexivity].
  - destruct (String.eqb_spec k key) as [->|Hk]; simpl.
    + destruct (String.eqb_spec key other); [now subst|reflexivity].
    + destruct (String.eqb_spec k other); [reflexivity|exact IH].
Qed.

Lemma get_missing (entries : Js.Env) (key : string) :
  ~ In key (map fst entries) -> Js.get entries key = None.
Proof.
  induction entries as [|[k w] entries IH]; simpl; [reflexivity|].
  intros H. destruct (String.eqb_spec k key) as [->|Hk]; [tauto|].
  apply IH. tauto.
Qed.

(** A spread copies every property of its object over what is there. *)
Lemma get_spreadInto (entries acc : Js.Env) (key : string) :
  NoDup (map fst entries) ->
  Js.get (spreadInto acc entries) key
  = match Js.get entries key with Some v => Some v | None => Js.get acc key end.
Proof.
  unfold spreadInto. revert acc.
  induction entries as [|[k w] entries IH]; intros acc Hnodup; simpl; [reflexivity|].
  inversion Hnodup as [|? ? Hk Hrest]; subst.
  rewrite (IH _ Hrest). cbn [fst snd].
  destruct (String.eqb_spec k key) as [->|Hneq].
  - rewrite (get_missing _ _ Hk). apply get_set_same.
  - destruct (Js.get entries key); [reflexivity|].
    apply get_set_other. congruence.
Qed.

Lemma get_spread_copy (entries : Js.Env) (key : string) :
  NoDup (map fst entries) -> Js.get (spreadInto [] entries) key = Js.get entries key.
Proof.
  intros H. rewrite (get_spreadInto _ _ _ H). now destruct (Js.get entries key).
Qed.

Lemma get_overridden (h : string -> Js.Value) (fs : list EntityField) (acc : Js.Env)
    (key : string) :
  Js.get (overridden h fs acc) key
  = if existsb (fun f => String.eqb (name f) key) fs then Some (h key)
    else Js.get acc key.
Proof.
  unfold overridden. revert acc. induction fs as [|f fs IH]; intros acc; simpl;
    [reflexivity|].
  rewrite IH. destruct (existsb (fun f0 => String.eqb (name f0) key) fs).
  - now rewrite orb_true_r.
  - rewrite orb_false_r. destruct (String.eqb_spec (name f) key) as [<-|Hk].
    + apply get_set_same.
    + apply get_set_other. congruence.
Qed.

Lemma eval_object (host : string -> list Js.Value -> Js.Value) (fuel : nat)
    (this : Js.Value) (env : Js.Env) (ps : list Node) (calls : Js.Calls) :
  Js.eval host (S fuel) this env (ObjectExpression ps) calls
  = evalProperties (Js.eval host fuel this env) ps [] calls.
Proof. reflexivity. Qed.

Lemma evalProperties_spread (evalNode : Node -> Js.Calls -> Js.Result * Js.Calls)
    (a : Node) (rest : list Node) (acc : Js.Env) (calls calls' : Js.Calls)
    (entries : Js.Env) :
  evalNode a calls = (Js.Returned (Js.VObject entries), calls') ->
  evalProperties evalNode (SpreadProperty a :: rest) acc calls
  = evalProperties evalNode rest (spreadInto acc entries) calls'.
Proof. intros H. cbn [evalProperties]. now rewrite H. Qed.

Lemma evalProperties_property (evalNode : Node -> Js.Calls -> Js.Result * Js.Calls)
    (k : string) (v : Node) (rest : list Node) (acc : Js.Env) (calls calls' : Js.Calls)
    (w : Js.Value) :
  k <> "__proto__" ->
  evalNode v calls = (Js.Returned w, calls') ->
  evalProperties evalNode (ObjectProperty (Identifier k) v :: rest) acc calls
  = evalProperties evalNode rest (Js.set acc k w) calls'.
Proof.
  intros Hk H. cbn [evalProperties].
  destruct (String.eqb_spec k "__proto__") as [->|_]; [contradiction|].
  now rewrite H.
Qed.

Section MappingEvaluation.

Variable host : string -> list Js.Value -> Js.Value.
Variable this : Js.Value.
Variable env args data : Js.Env.
Hypothesis Hargs : bindsArgs env args data.

(** The override of a key evaluates, with [fuel], to [h key] and makes the
    calls [c key]. *)
Variable value : string -> Node.
Variable h : string -> Js.Value.
Variable c : string -> Js.Calls.
Variable fuel : nat.
Hypothesis Hvalue :
  forall key calls,
    Js.eval host (S (S fuel)) this env (value key) calls
    = (Js.Returned (h key), calls ++ c key).

Lemma eval_overrides (fs : list EntityField) (acc : Js.Env) (calls : Js.Calls) :
  (forall f, In f fs -> name f <> "__proto__") ->
  evalProperties (Js.eval host (S (S fuel)) this env) (map (overrideWith value) fs)
    acc calls
  = (Js.Returned (Js.VObject (overridden h fs acc)),
     calls ++ flat_map (fun f => c (name f)) fs).
Proof.
  revert acc calls. induction fs as [|f fs IH]; intros acc calls Hnames.
  - simpl. now rewrite app_nil_r.
  - cbn [map flat_map]. unfold overrideWith at 1.
    rewrite (evalProperties_property _ _ _ _ _ _ _ _ (Hnames f (or_introl eq_refl))
               (Hvalue (name f) calls)).
    rewrite IH by (intros g Hg; apply Hnames; now right).
    now rewrite app_assoc.
Qed.

Lemma eval_args_data (calls : Js.Calls) :
  Js.eval host (S (S fuel)) this env ARGS_DATA calls
  = (Js.Returned (Js.VObject data), calls).
Proof.
  destruct Hargs as (Henv & Hdata & _). unfold ARGS_DATA, ARGS_ID, DATA_ID.
  cbn [Js.eval]. rewrite Henv. cbn [Js.getMember]. unfold Js.read. now rewrite Hdata.
Qed.

Lemma eval_args (calls : Js.Calls) :
  Js.eval host (S (S (S fuel))) this env ARGS_ID calls
  = (Js.Returned (Js.VObject args), calls).
Proof. destruct Hargs as (Henv & _). simpl. now rewrite Henv. Qed.

(** The mapping evaluates to a copy of [args] whose [data] is a copy of
    [args.data] with the overrides set. *)
Lemma eval_mapping (f : EntityField) (fs : list EntityField) (calls : Js.Calls) :
  (forall g, In g (f :: fs) -> name g <> "__proto__") ->
  Js.eval host (S (S (S (S fuel)))) this env
    (createMutationDataMapping (map (overrideWith value) (f :: fs))) calls
  = (Js.Returned
       (Js.VObject
          (Js.set (spreadInto [] args) "data"
             (Js.VObject (overridden h (f :: fs) (spreadInto [] data))))),
     calls ++ flat_map (fun f => c (name f)) (f :: fs)).
Proof.
  intros Hnames.
  assert (Hdata : forall calls,
            Js.eval host (S (S (S fuel))) this env
              (ObjectExpression
                 (SpreadProperty ARGS_DATA :: map (overrideWith value) (f :: fs))) calls
            = (Js.Returned (Js.VObject (overridden h (f :: fs) (spreadInto [] data))),
               calls ++ flat_map (fun f => c (name f)) (f :: fs))).
  { intros calls0. rewrite eval_object.
    rewrite (evalProperties_spread _ _ _ _ _ _ _ (eval_args_data calls0)).
    now apply eval_overrides. }
  unfold createMutationDataMapping. cbn [map]. unfold DATA_ID.
  change (overrideWith value f :: map (overrideWith value) fs)
    with (map (overrideWith value) (f :: fs)).
  rewrite eval_object.
  rewrite (evalProperties_spread _ _ _ _ _ _ _ (eval_args calls)).
  assert (Hkey : "data" <> "__proto__") by discriminate.
  rewrite (evalProperties_property _ _ _ _ _ _ _ _ Hkey (Hdata calls)).
  reflexivity.
Qed.

(** What the evaluated mapping holds. *)
Lemma mapping_result (fs : list EntityField) :
  let newData := overridden h fs (spreadInto [] data) in
  let result := Js.set (spreadInto [] args) "data" (Js.VObject newData) in
  Js.get result "data" = Some (Js.VObject newData)
  /\ (forall key, key <> "data" -> Js.get result key = Js.get args key)
  /\ (forall field, In field fs -> Js.get newData (name field) = Some (h (name field)))
  /\ (forall key, ~ In key (map name fs) -> Js.get newData key = Js.get data key).
Proof.
  destruct Hargs as (_ & _ & Hnodup_args & Hnodup_data).
  intros newData result. split; [apply get_set_same|]. split; [|split].
  - intros key Hkey. unfold result. rewrite get_set_other by exact Hkey.
    now apply get_spread_copy.
  - intros field Hin. unfold newData. rewrite get_overridden.
    assert (Hex : existsb (fun f => String.eqb (name f) (name field)) fs = true).
    { apply existsb_exists. exists field. split; [exact Hin|apply String.eqb_refl]. }
    now rewrite Hex.
  - intros key Hout. unfold newData. rewrite get_overridden.
    assert (Hex : existsb (fun f => String.eqb (name f) key) fs = false).
    { destruct (existsb (fun f => String.eqb (name f) key) fs) eqn:E; [|reflexivity].
      apply existsb_exists in E as (f & Hf & Heq). apply String.eqb_eq in Heq.
      exfalso. apply Hout. apply in_map_iff. now exists f. }
    rewrite Hex. now apply get_spread_copy.
Qed.

End MappingEvaluation.

(** One step of evaluation, form by form. *)
Section Steps.

Variable host : string -> list Js.Value -> Js.Value.
Variable m : nat.
Variable this : Js.Value.
Variable env : Js.Env.

Lemma eval_await (a : Node) (calls : Js.Calls) :
  Js.eval host (S m) this env (AwaitExpression a) calls = Js.eval host m this env a calls.
Proof. reflexivity. Qed.

Lemma eval_and (l r : Node) (calls : Js.Calls) :
  Js.eval host (S m) this env (LogicalExpression "&&" l r) calls
  = match Js.eval host m this env l calls with
    | (Js.Returned lv, calls') =>
        if Js.truthy lv then Js.eval host m this env r calls' else (Js.Returned lv, calls')
    | failed => failed
    end.
Proof. reflexivity. Qed.

Lemma eval_identifier (x : string) (v : Js.Value) (calls : Js.Calls) :
  Js.get env x = Some v ->
  Js.eval host (S m) this env (Identifier x) calls = (Js.Returned v, calls).
Proof. intros H. cbn [Js.eval]. now rewrite H. Qed.

Lemma eval_arrow (params : list Node) (body : Node) (calls : Js.Calls) :
  Js.eval host (S m) this env (ArrowFunctionExpression params body) calls
  = (Js.Returned (Js.VClosure env this params body), calls).
Proof. reflexivity. Qed.

Lemma eval_call_host (f a : Node) (x : string) (v : Js.Value)
    (calls calls1 calls2 : Js.Calls) :
  Js.eval host m this env f calls = (Js.Returned (Js.VHost x), calls1) ->
  Js.eval host m this env a calls1 = (Js.Returned v, calls2) ->
  Js.eval host (S m) this env (CallExpression f [a]) calls
  = (Js.Returned (host x [v]), calls2 ++ [(x, [v])]).
Proof. intros Hf Ha. cbn [Js.eval]. now rewrite Hf, Ha. Qed.

Lemma eval_call_host2 (f a b : Node) (x : string) (v w : Js.Value)
    (calls calls1 calls2 calls3 : Js.Calls) :
  Js.eval host m this env f calls = (Js.Returned (Js.VHost x), calls1) ->
  Js.eval host m this env a calls1 = (Js.Returned v, calls2) ->
  Js.eval host m this env b calls2 = (Js.Returned w, calls3) ->
  Js.eval host (S m) this env (CallExpression f [a; b]) calls
  = (Js.Returned (host x [v; w]), calls3 ++ [(x, [v; w])]).
Proof. intros Hf Ha Hb. cbn [Js.eval]. now rewrite Hf, Ha, Hb. Qed.

Lemma eval_call_closure (f a : Node) (v : Js.Value) (cenv bound : Js.Env)
    (cthis : Js.Value) (params : list Node) (body : Node)
    (calls calls1 calls2 : Js.Calls) :
  Js.eval host m this env f calls = (Js.Returned (Js.VClosure cenv cthis params body), calls1) ->
  Js.eval host m this env a calls1 = (Js.Returned v, calls2) ->
  Js.bindParams params [v] = Some bound ->
  Js.eval host (S m) this env (CallExpression f [a]) calls
  = Js.eval host m cthis (bound ++ cenv) body calls2.
Proof. intros Hf Ha Hbound. cbn [Js.eval]. now rewrite Hf, Ha, Hbound. Qed.

End Steps.

Lemma flat_map_single {A B : Type} (g : A -> B) (l : list A) :
  flat_map (fun x => [g x]) l = map g l.
Proof. induction l as [|x l IH]; simpl; [reflexivity|now rewrite IH]. Qed.

Lemma eval_value_of (host : string -> list Js.Value -> Js.Value) (this : Js.Value)
    (env args data : Js.Env) (n : nat) (key : string) (calls : Js.Calls) :
  bindsArgs env args data ->
  Js.eval host (S (S (S n))) this env
    (MemberExpression (MemberExpression (Identifier "args") (Identifier "data"))
       (Identifier key)) calls
  = (Js.Returned (Js.read data key), calls).
Proof.
  intros (Henv & Hdata & _). cbn [Js.eval]. rewrite Henv. cbn [Js.getMember].
  unfold Js.read at 1. now rewrite Hdata.
Qed.

Lemma eval_hash_member (host : string -> list Js.Value -> Js.Value) (this : Js.Value)
    (env : Js.Env) (n : nat) (calls : Js.Calls) :
  hasPasswordService this ->
  Js.eval host (S (S (S n))) this env HASH_MEMBER_EXPRESSION calls
  = (Js.Returned (Js.VHost "hash"), calls).
Proof.
  intros (service & Hservice & Hhash). simpl. rewrite Hservice. now rewrite Hhash.
Qed.

Lemma eval_hashedValue (host : string -> list Js.Value -> Js.Value) (this : Js.Value)
    (env args data : Js.Env) (n : nat) (key : string) (calls : Js.Calls) :
  hasPasswordService this -> bindsArgs env args data ->
  Js.eval host (S (S (S (S (S n))))) this env (hashedValue key) calls
  = (Js.Returned (host "hash" [Js.read data key]), calls ++ [hashCall data key]).
Proof.
  intros Hthis Hargs. unfold hashedValue. rewrite eval_await.
  eapply eval_call_host.
  - exact (eval_hash_member host this env n calls Hthis).
  - exact (eval_value_of host this env args data n key calls Hargs).
Qed.

Lemma no_password_field_named (entity : Entity) (key : string) :
  (forall field, In field (fields entity) -> isPasswordField field = true ->
                 name field <> key) ->
  ~ In key (map name (passwordFieldsOf entity)).
Proof.
  intros Hkey Hin. apply in_map_iff in Hin as (field & Hname & Hfield).
  apply filter_In in Hfield as [Hfield Hpassword].
  exact (Hkey field Hfield Hpassword Hname).
Qed.

(** X8.  Evaluated where [this.passwordService.hash] is the hashing
    collaborator and [args] is an object with an object [data], the
    create-args mapping of an entity none of whose password fields is
    named [__proto__] returns an object that has every property of [args]
    but [data] as supplied; its [data] has every property of [args.data]
    as supplied, except that the key of each password field holds what the
    collaborator returns for what [args.data.<field>] reads: the supplied
    value, or for a field left out the member every object inherits under
    that name, if any, and else [undefined].  The collaborator is called
    once per password field, in the order of the entity's fields, and
    nothing else is called. *)
Theorem create_mapping_hashes_and_passes_through
    (host : string -> list Js.Value -> Js.Value) (this : Js.Value)
    (env args data : Js.Env) (entity : Entity) (n : nat) (calls : Js.Calls) :
  hasPasswordService this ->
  bindsArgs env args data ->
  definesProperties entity ->
  exists result newData,
    Js.eval host (7 + n) this env
      (createMutationDataMapping (map createArgsProperty (passwordFieldsOf entity)))
      calls
    = (Js.Returned (Js.VObject result),
       calls ++ map (fun field => ("hash", [Js.read data (name field)]))
                    (passwordFieldsOf entity))
    /\ Js.get result "data" = Some (Js.VObject newData)
    /\ (forall key, key <> "data" -> Js.get result key = Js.get args key)
    /\ (forall field,
          In field (fields entity) -> isPasswordField field = true ->
          Js.get newData (name field)
          = Some (host "hash" [Js.read data (name field)]))
    /\ (forall key,
          (forall field, In field (fields entity) -> isPasswordField field = true ->
                         name field <> key) ->
          Js.get newData key = Js.get data key).
Proof.
  intros Hthis Hargs Hnames.
  assert (Hfields : forall g, In g (passwordFieldsOf entity) -> name g <> "__proto__").
  { intros g Hg. apply filter_In in Hg as [Hin Hpassword]. now apply Hnames. }
  destruct (passwordFieldsOf entity) as [|f fs] eqn:Hfs.
  - exists args, data. pose proof Hargs as (Henv & Hdata & _).
    split; [simpl; now rewrite Henv, app_nil_r|]. split; [exact Hdata|].
    split; [reflexivity|]. split; [|reflexivity].
    intros field Hin Hpassword.
    assert (Hfield : In field (passwordFieldsOf entity))
      by (apply filter_In; now split).
    rewrite Hfs in Hfield. contradiction.
  - set (h := fun key => host "hash" [Js.read data key]).
    set (c := fun key => [hashCall data key]).
    assert (Hvalue : forall key calls,
              Js.eval host (S (S (3 + n))) this env (hashedValue key) calls
              = (Js.Returned (h key), calls ++ c key))
      by (intros; now apply eval_hashedValue with (args := args)).
    destruct (mapping_result env args data Hargs h (f :: fs))
      as (Hdata & Hrest & Hset & Hkept).
    eexists. eexists. split; [|split; [exact Hdata|split; [exact Hrest|split]]].
    + change (map createArgsProperty (f :: fs))
        with (map (overrideWith hashedValue) (f :: fs)).
      change (7 + n) with (S (S (S (S (3 + n))))).
      rewrite (eval_mapping host this env args data Hargs hashedValue h c (3 + n)
                 Hvalue f fs calls Hfields).
      unfold c, hashCall. now rewrite flat_map_single.
    + intros field Hin Hpassword. apply Hset. rewrite <- Hfs.
      apply filter_In. now split.
    + intros key Hkey. apply Hkept. rewrite <- Hfs.
      now apply no_password_field_named.
Qed.

(** X8, on a creation that supplies the password, and on one whose entity
    names its password field [constructor] and whose data leaves it out:
    what is hashed there is the member every object inherits. *)
Lemma create_mapping_hashes_and_passes_through_witness :
  hasPasswordService Example.this
  /\ bindsArgs Scenario.env Scenario.args Scenario.data
  /\ definesProperties Example.customer
  /\ (exists result newData,
        Js.eval Scenario.host 7 Example.this Scenario.env
          (createMutationDataMapping
             (map createArgsProperty (passwordFieldsOf Example.customer))) []
        = (Js.Returned (Js.VObject result), [("hash", [Js.VString "secret"])])
        /\ Js.get result "data" = Some (Js.VObject newData)
        /\ Js.get newData "password"
           = Some (Scenario.host "hash" [Js.VString "secret"])
        /\ Js.get newData "name" = Some (Js.VString "Ann"))
  /\ (exists result newData,
        Js.eval Scenario.host 7 Example.this Scenario.env
          (createMutationDataMapping
             (map createArgsProperty (passwordFieldsOf Scenario.account))) []
        = (Js.Returned (Js.VObject result), [("hash", [Js.VInherited "constructor"])])
        /\ Js.get result "data" = Some (Js.VObject newData)
        /\ Js.get newData "constructor"
           = Some (Scenario.host "hash" [Js.VInherited "constructor"])).
Proof.
  assert (Hthis : hasPasswordService Example.this).
  { exists (Js.VObject [("hash", Js.VHost "hash")]). split; reflexivity. }
  assert (Hargs : bindsArgs Scenario.env Scenario.args Scenario.data).
  { repeat split; try reflexivity;
      repeat (apply NoDup_cons; [simpl; intuition discriminate|]); apply NoDup_nil. }
  assert (Hcustomer : definesProperties Example.customer).
  { intros field [<-|[<-|[]]] _; discriminate. }
  assert (Haccount : definesProperties Scenario.account).
  { intros field [<-|[]] _; discriminate. }
  split; [exact Hthis|]. split; [exact Hargs|]. split; [exact Hcustomer|]. split.
  - destruct (create_mapping_hashes_and_passes_through Scenario.host Example.this
                Scenario.env Scenario.args Scenario.data Example.customer 0 []
                Hthis Hargs Hcustomer)
      as (result & newData & Heval & Hdata & _ & Hhashed & Hkept).
    exists result, newData. split; [exact Heval|]. split; [exact Hdata|]. split.
    + apply (Hhashed {| name := "password"; dataType := Password |});
        [simpl; tauto|reflexivity].
    + rewrite (Hkept "name"); [reflexivity|].
      intros field [<-|[<-|[]]]; simpl; discriminate.
  - destruct (create_mapping_hashes_and_passes_through Scenario.host Example.this
                Scenario.env Scenario.args Scenario.data Scenario.account 0 []
                Hthis Hargs Haccount)
      as (result & newData & Heval & Hdata & _ & Hhashed & _).
    exists result, newData. split; [exact Heval|]. split; [exact Hdata|].
    apply (Hhashed {| name := "constructor"; dataType := Password |});
      [simpl; tauto|reflexivity].
Defined.

Lemma eval_transformedValue (host : string -> list Js.Value -> Js.Value)
    (this : Js.Value) (env args data : Js.Env) (n : nat) (key : string)
    (calls : Js.Calls) :
  bindsArgs env args data ->
  Js.get env "transformStringFieldUpdateInput"
  = Some (Js.VHost "transformStringFieldUpdateInput") ->
  Js.eval host (S (S (S (S (S (S n)))))) this env (transformedValue key) calls
  = (Js.Returned
       (if Js.truthy (Js.read data key)
        then host "transformStringFieldUpdateInput"
               [Js.read data key; hashCallback env this]
        else Js.read data key),
     calls ++ transformCalls env this data key).
Proof.
  intros Hargs Hhelper. unfold transformedValue, transformCalls.
  rewrite eval_and.
  rewrite (eval_value_of host this env args data (S (S n)) key calls Hargs).
  destruct (Js.truthy (Js.read data key)); [|now rewrite app_nil_r].
  rewrite eval_await.
  eapply eval_call_host2.
  - now apply eval_identifier.
  - exact (eval_value_of host this env args data n key calls Hargs).
  - apply eval_arrow.
Qed.

(** X9.  Evaluated where [args] is an object with an object [data] and
    [transformStringFieldUpdateInput] is the transform helper, the
    update-args mapping of an entity none of whose password fields is
    named [__proto__] returns an object that has every property of [args]
    but [data] as supplied; its [data] has every property of [args.data]
    as supplied, except that the key of each password field holds what
    [args.data.<field>] reads when that is falsy, and otherwise what the
    helper returns for it and the hashing callback.  What
    [args.data.<field>] reads is the supplied value, or for a field left
    out the member every object inherits under that name, if any, and else
    [undefined].  The helper is called once per password field that reads
    a truthy value, in the order of the entity's fields, and the mapping
    itself calls nothing else, the hashing collaborator included. *)
Theorem update_mapping_transforms_and_passes_through
    (host : string -> list Js.Value -> Js.Value) (this : Js.Value)
    (env args data : Js.Env) (entity : Entity) (n : nat) (calls : Js.Calls) :
  bindsArgs env args data ->
  Js.get env "transformStringFieldUpdateInput"
  = Some (Js.VHost "transformStringFieldUpdateInput") ->
  definesProperties entity ->
  let made :=
    flat_map (fun field => transformCalls env this data (name field))
             (passwordFieldsOf entity) in
  exists result newData,
    Js.eval host (8 + n) this env
      (createMutationDataMapping (map updateArgsProperty (passwordFieldsOf entity)))
      calls
    = (Js.Returned (Js.VObject result), calls ++ made)
    /\ Js.get result "data" = Some (Js.VObject newData)
    /\ (forall key, key <> "data" -> Js.get result key = Js.get args key)
    /\ (forall field,
          In field (fields entity) -> isPasswordField field = true ->
          Js.get newData (name field)
          = Some (if Js.truthy (Js.read data (name field))
                  then host "transformStringFieldUpdateInput"
                         [Js.read data (name field); hashCallback env this]
                  else Js.read data (name field)))
    /\ (forall key,
          (forall field, In field (fields entity) -> isPasswordField field = true ->
                         name field <> key) ->
          Js.get newData key = Js.get data key)
    /\ (forall call, In call made -> fst call = "transformStringFieldUpdateInput").
Proof.
  intros Hargs Hhelper Hnames made.
  assert (Hfields : forall g, In g (passwordFieldsOf entity) -> name g <> "__proto__").
  { intros g Hg. apply filter_In in Hg as [Hin Hpassword]. now apply Hnames. }
  assert (Hmade : forall call, In call made ->
                                fst call = "transformStringFieldUpdateInput").
  { intros call Hin. apply in_flat_map in Hin as (field & _ & Hin).
    unfold transformCalls in Hin.
    destruct (Js.truthy (Js.read data (name field))); [|contradiction].
    destruct Hin as [<-|[]]. reflexivity. }
  subst made.
  destruct (passwordFieldsOf entity) as [|f fs] eqn:Hfs.
  - exists args, data. pose proof Hargs as (Henv & Hdata & _).
    split; [simpl; now rewrite Henv, app_nil_r|]. split; [exact Hdata|].
    split; [reflexivity|]. split; [|split; [reflexivity|exact Hmade]].
    intros field Hin Hpassword.
    assert (Hfield : In field (passwordFieldsOf entity))
      by (apply filter_In; now split).
    rewrite Hfs in Hfield. contradiction.
  - set (h := fun key =>
                if Js.truthy (Js.read data key)
                then host "transformStringFieldUpdateInput"
                       [Js.read data key; hashCallback env this]
                else Js.read data key).
    set (c := fun key => transformCalls env this data key).
    assert (Hvalue : forall key calls,
              Js.eval host (S (S (4 + n))) this env (transformedValue key) calls
              = (Js.Returned (h key), calls ++ c key))
      by (intros; now apply eval_transformedValue with (args := args)).
    destruct (mapping_result env args data Hargs h (f :: fs))
      as (Hdata & Hrest & Hset & Hkept).
    eexists. eexists.
    split; [|split; [exact Hdata|split; [exact Hrest|split; [|split]]]].
    + change (map updateArgsProperty (f :: fs))
        with (map (overrideWith transformedValue) (f :: fs)).
      change (8 + n) with (S (S (S (S (4 + n))))).
      exact (eval_mapping host this env args data Hargs transformedValue h c (4 + n)
               Hvalue f fs calls Hfields).
    + intros field Hin Hpassword. apply Hset. rewrite <- Hfs.
      apply filter_In. now split.
    + intros key Hkey. apply Hkept. rewrite <- Hfs.
      now apply no_password_field_named.
    + exact Hmade.
Qed.

(** X9, on an update that supplies the password, and on one whose entity
    names its password field [constructor] and whose data leaves it out:
    the helper is called there, with the member every object inherits. *)
Lemma update_mapping_transforms_and_passes_through_witness :
  bindsArgs Scenario.env Scenario.args Scenario.data
  /\ definesProperties Example.customer
  /\ (exists result newData,
        Js.eval Scenario.host 8 Example.this Scenario.env
          (createMutationDataMapping
             (map updateArgsProperty (passwordFieldsOf Example.customer))) []
        = (Js.Returned (Js.VObject result),
           [("transformStringFieldUpdateInput",
             [Js.VString "secret"; hashCallback Scenario.env Example.this])])
        /\ Js.get result "data" = Some (Js.VObject newData)
        /\ Js.get newData "name" = Some (Js.VString "Ann"))
  /\ (exists result newData,
        Js.eval Scenario.host 8 Example.this Scenario.env
          (createMutationDataMapping
             (map updateArgsProperty (passwordFieldsOf Scenario.account))) []
        = (Js.Returned (Js.VObject result),
           [("transformStringFieldUpdateInput",
             [Js.VInherited "constructor"; hashCallback Scenario.env Example.this])])
        /\ Js.get result "data" = Some (Js.VObject newData)).
Proof.
  assert (Hargs : bindsArgs Scenario.env Scenario.args Scenario.data).
  { repeat split; try reflexivity;
      repeat (apply NoDup_cons; [simpl; intuition discriminate|]); apply NoDup_nil. }
  assert (Hcustomer : definesProperties Example.customer).
  { intros field [<-|[<-|[]]] _; discriminate. }
  assert (Haccount : definesProperties Scenario.account).
  { intros field [<-|[]] _; discriminate. }
  split; [exact Hargs|]. split; [exact Hcustomer|]. split.
  - destruct (update_mapping_transforms_and_passes_through Scenario.host Example.this
                Scenario.env Scenario.args Scenario.data Example.customer 0 []
                Hargs eq_refl Hcustomer)
      as (result & newData & Heval & Hdata & _ & _ & Hkept & _).
    exists result, newData. split; [exact Heval|]. split; [exact Hdata|].
    rewrite (Hkept "name"); [reflexivity|].
    intros field [<-|[<-|[]]]; simpl; discriminate.
  - destruct (update_mapping_transforms_and_passes_through Scenario.host Example.this
                Scenario.env Scenario.args Scenario.data Scenario.account 0 []
                Hargs eq_refl Haccount)
      as (result & newData & Heval & Hdata & _).
    exists result, newData. split; [exact Heval|exact Hdata].
Defined.

(** X10.  The callback the update mapping hands to the transform helper,
    called with a value from any environment and any [this] of the
    caller, calls the hashing collaborator of the class it was made in
    with that value, once, and returns what the collaborator returns. *)
Theorem hash_callback_hashes_its_argument
    (host : string -> list Js.Value -> Js.Value) (this caller : Js.Value)
    (env callerEnv : Js.Env) (p : Js.Value) (n : nat) (calls : Js.Calls) :
  hasPasswordService this ->
  Js.get callerEnv "callback" = Some (hashCallback env this) ->
  Js.get callerEnv "value" = Some p ->
  Js.eval host (5 + n) caller callerEnv
    (CallExpression (Identifier "callback") [Identifier "value"]) calls
  = (Js.Returned (host "hash" [p]), calls ++ [("hash", [p])]).
Proof.
  intros Hthis Hcallback Hp.
  change (5 + n) with (S (S (S (S (S n))))).
  rewrite (eval_call_closure host (S (S (S (S n)))) caller callerEnv
             (Identifier "callback") (Identifier "value") p env [("password", p)] this
             [Identifier "password"]
             (CallExpression HASH_MEMBER_EXPRESSION [Identifier "password"])
             calls calls calls);
    [|now apply eval_identifier|now apply eval_identifier|reflexivity].
  eapply eval_call_host.
  - exact (eval_hash_member host this _ n calls Hthis).
  - now apply eval_identifier.
Qed.

Lemma hash_callback_hashes_its_argument_witness :
  hasPasswordService Example.this
  /\ Js.eval Scenario.host 5 Js.VUndefined
       [ ("callback", hashCallback Scenario.env Example.this);
         ("value", Js.VString "secret") ]
       (CallExpression (Identifier "callback") [Identifier "value"]) []
     = (Js.Returned (Scenario.host "hash" [Js.VString "secret"]),
        [("hash", [Js.VString "secret"])]).
Proof.
  assert (Hthis : hasPasswordService Example.this).
  { exists (Js.VObject [("hash", Js.VHost "hash")]). split; reflexivity. }
  split; [exact Hthis|].
  apply (hash_callback_hashes_its_argument Scenario.host Example.this Js.VUndefined
           Scenario.env _ (Js.VString "secret") 0 [] Hthis); reflexivity.
Defined.
